(** * ngx-todo-app: the [BaseService] request facade

    A shallow embedding of [BaseService] (the base class of the API
    services) and of the [JSendReply] envelope of
    [src/app/models/api-response.model.ts].

    The class is glue over three collaborators that live outside the
    repository: the ECMAScript built-ins ([Date.prototype.toDateString],
    truthiness, [for..in]), Angular's [URLSearchParams], [Http] and
    [Response] (package [@angular/http]) and the RxJS operators [map],
    [catch] and [Observable.throw].  Each of them is modelled below by the
    part of its behaviour that [BaseService] relies on; the methods of
    [BaseService] themselves are transcribed statement by statement. *)

From Stdlib Require Import ZArith List String Ascii Bool Lia DecimalString.
Import ListNotations.

Open Scope string_scope.
Open Scope Z_scope.
Open Scope list_scope.

Set Warnings "-register-all".

(* ================================================================== *)
(** * ECMAScript values *)
(* ================================================================== *)

Module JS.

(** ** Dates

    A [Date] object holds a time value, or [NaN] when it is invalid.  The
    time value is kept here in local time (the [LocalTime(tv)] of
    ECMA-262, in milliseconds since the epoch), which is what
    [toDateString] formats. *)
Inductive Date : Type :=
| InvalidDate
| ValidDate (t : Z).

Definition msPerDay : Z := 86400000.

Definition Day (t : Z) : Z := t / msPerDay.

Definition TimeWithinDay (t : Z) : Z := t mod msPerDay.

Definition WeekDay (t : Z) : Z := (Day t + 4) mod 7.

Definition DaysInYear (y : Z) : Z :=
  if negb (y mod 4 =? 0) then 365
  else if negb (y mod 100 =? 0) then 366
  else if negb (y mod 400 =? 0) then 365
  else 366.

Definition DayFromYear (y : Z) : Z :=
  365 * (y - 1970) + (y - 1969) / 4 - (y - 1901) / 100 + (y - 1601) / 400.

(** ECMA-262 defines [YearFromTime(t)] as the largest [y] whose first day
    is not after [t]; it is computed from the mean length of a Gregorian
    year and corrected by at most one year ([YearFromTime_spec]). *)
Definition YearFromTime (t : Z) : Z :=
  let y := 1970 + (400 * Day t) / 146097 in
  if Day t <? DayFromYear y then y - 1
  else if DayFromYear (y + 1) <=? Day t then y + 1
  else y.

Definition InLeapYear (t : Z) : Z :=
  if DaysInYear (YearFromTime t) =? 366 then 1 else 0.

Definition DayWithinYear (t : Z) : Z := Day t - DayFromYear (YearFromTime t).

Definition MonthFromTime (t : Z) : Z :=
  let d := DayWithinYear t in
  let l := InLeapYear t in
  if d <? 31 then 0
  else if d <? 59 + l then 1
  else if d <? 90 + l then 2
  else if d <? 120 + l then 3
  else if d <? 151 + l then 4
  else if d <? 181 + l then 5
  else if d <? 212 + l then 6
  else if d <? 243 + l then 7
  else if d <? 273 + l then 8
  else if d <? 304 + l then 9
  else if d <? 334 + l then 10
  else 11.

Definition DateFromTime (t : Z) : Z :=
  let d := DayWithinYear t in
  let l := InLeapYear t in
  match MonthFromTime t with
  | 0 => d + 1
  | 1 => d - 30
  | 2 => d - 58 - l
  | 3 => d - 89 - l
  | 4 => d - 119 - l
  | 5 => d - 150 - l
  | 6 => d - 180 - l
  | 7 => d - 211 - l
  | 8 => d - 242 - l
  | 9 => d - 272 - l
  | 10 => d - 303 - l
  | _ => d - 333 - l
  end.

Definition weekday_name (d : Z) : string :=
  match d with
  | 0 => "Sun" | 1 => "Mon" | 2 => "Tue" | 3 => "Wed"
  | 4 => "Thu" | 5 => "Fri" | _ => "Sat"
  end.

Definition month_name (m : Z) : string :=
  match m with
  | 0 => "Jan" | 1 => "Feb" | 2 => "Mar" | 3 => "Apr"
  | 4 => "May" | 5 => "Jun" | 6 => "Jul" | 7 => "Aug"
  | 8 => "Sep" | 9 => "Oct" | 10 => "Nov" | _ => "Dec"
  end.

(** Decimal digits of an integer, as [Number::toString] prints them. *)
Definition decimal (n : Z) : string := NilZero.string_of_int (Z.to_int n).

Fixpoint zeros (n : nat) : string :=
  match n with
  | O => ""
  | S n' => "0" ++ zeros n'
  end.

(** [ToZeroPaddedDecimalString(n, minLength)] for [n >= 0]. *)
Definition ToZeroPaddedDecimalString (n : Z) (minLength : nat) : string :=
  let s := decimal n in
  zeros (minLength - String.length s) ++ s.

(** [DateString(tv)] of ECMA-262: weekday, month, day of the month and
    year, separated by single spaces. *)
Definition DateString (tv : Z) : string :=
  let yv := YearFromTime tv in
  weekday_name (WeekDay tv) ++ " " ++
  month_name (MonthFromTime tv) ++ " " ++
  ToZeroPaddedDecimalString (DateFromTime tv) 2 ++ " " ++
  (if 0 <=? yv then "" else "-") ++
  ToZeroPaddedDecimalString (Z.abs yv) 4.

(** [Date.prototype.toDateString()]. *)
Definition toDateString (d : Date) : string :=
  match d with
  | InvalidDate => "Invalid Date"
  | ValidDate t => DateString t
  end.

(** ** Values

    The values a parameter bag or a decoded response body is made of.
    Numbers are the integers (fractions, [NaN] and the infinities are
    not represented): the service never computes with a number, it only
    tests one for truthiness and lets Angular print it.  An object
    is the list of its enumerable properties in [for..in] order; the
    property names of one object are pairwise distinct, which the
    theorems that need it assume as [NoDup].
    Values are finite trees, so an object that refers to itself has no
    representation. *)
Inductive JsValue : Type :=
| JUndefined
| JNull
| JBoolean (b : bool)
| JNumber (n : Z)
| JString (s : string)
| JDate (d : Date)
| JArray (elements : list JsValue)
| JObject (properties : list (string * JsValue)).

(** [ToBoolean]: the values that [||] lets through. *)
Definition truthy (v : JsValue) : bool :=
  match v with
  | JUndefined | JNull => false
  | JBoolean b => b
  | JNumber n => negb (n =? 0)
  | JString s => negb (String.eqb s "")
  | JDate _ | JArray _ | JObject _ => true
  end.

(** [v === void 0 || v === null]. *)
Definition nullish (v : JsValue) : bool :=
  match v with
  | JUndefined | JNull => true
  | _ => false
  end.

(** The strings, numbers and booleans: the values with a string form of
    their own. *)
Definition is_scalar (v : JsValue) : bool :=
  match v with
  | JBoolean _ | JNumber _ | JString _ => true
  | _ => false
  end.

(** [{}], the object without properties. *)
Definition empty_object : JsValue := JObject [].

End JS.

(* ================================================================== *)
(** * Angular's [URLSearchParams] *)
(* ================================================================== *)

(** [URLSearchParams] of [@angular/http] (Angular 4 and 5) keeps a
    [Map<string, string[]>] named [paramsMap].  An ECMAScript [Map]
    iterates in insertion order and [Map.set] on a key that is present
    keeps its position, so the map is an association list with pairwise
    distinct keys.  The declared value type is [string], but nothing is
    converted when a value is stored: the conversion happens when the
    query string is printed.  [set] and [append] start with the guard
    [val === void 0 || val === null]. *)
Module URLSearchParams.

Import JS.

Definition t : Type := list (string * list JsValue).

(** [new URLSearchParams()]. *)
Definition empty : t := [].

Fixpoint map_get (m : t) (param : string) : option (list JsValue) :=
  match m with
  | [] => None
  | (k, vs) :: m' => if String.eqb k param then Some vs else map_get m' param
  end.

Fixpoint map_set (m : t) (param : string) (list : list JsValue) : t :=
  match m with
  | [] => [(param, list)]
  | (k, vs) :: m' =>
      if String.eqb k param then (k, list) :: m'
      else (k, vs) :: map_set m' param list
  end.

Fixpoint map_delete (m : t) (param : string) : t :=
  match m with
  | [] => []
  | (k, vs) :: m' =>
      if String.eqb k param then m' else (k, vs) :: map_delete m' param
  end.

(** [getAll(param)]: [this.paramsMap.get(param) || []]. *)
Definition getAll (sp : t) (param : string) : list JsValue :=
  match map_get sp param with
  | Some vs => vs
  | None => []
  end.

(** [set(param, val)]: an undefined or null [val] deletes [param];
    otherwise the list of [param] is emptied, [val] is pushed and the list
    is stored back. *)
Definition set (sp : t) (param : string) (val : JsValue) : t :=
  if nullish val then map_delete sp param
  else map_set sp param [val].

(** [append(param, val)]: an undefined or null [val] is ignored;
    otherwise [val] is pushed on the list of [param]. *)
Definition append (sp : t) (param : string) (val : JsValue) : t :=
  if nullish val then sp
  else map_set sp param (getAll sp param ++ [val]).

(** [appendAll(searchParams)]: for each entry of the argument, in its
    order, every value is pushed on the list of the same name. *)
Definition appendAll (sp : t) (searchParams : t) : t :=
  fold_left
    (fun acc '(param, value) => map_set acc param (getAll acc param ++ value))
    searchParams sp.

(** The key/value pairs in the order [toString()] prints them, before
    any string conversion or percent-encoding. *)
Definition pairs (sp : t) : list (string * JsValue) :=
  flat_map (fun '(k, vs) => map (pair k) vs) sp.

(** The names of the entries of the map. *)
Definition keys (sp : t) : list string := map fst sp.

(** The values of the pairs named [param], in printing order. *)
Definition values_named (sp : t) (param : string) : list JsValue :=
  map snd (filter (fun p => String.eqb (fst p) param) (pairs sp)).

End URLSearchParams.

Import JS.

(* ================================================================== *)
(** * Printing stored values *)
(* ================================================================== *)


Section Printing.

Variable Date_toString : Date -> string.
Variable Number_toString : Z -> string.



End Printing.

(* ================================================================== *)
(** * [BaseService.transformParameters] *)
(* ================================================================== *)

Module Flatten.

Import URLSearchParams.

(** One round of the [for (let property in obj)] loop: [urlSearchParams]
    is the object built so far and [nested] stands for
    [this.transformParameters(parameter)], which only the second branch
    uses.  [typeof parameter === 'object'] holds of [null], dates, arrays
    and objects; dates are taken by the first test and arrays are
    excluded by [!Array.isArray(parameter)], so the second branch is the
    one of [null] and of the plain objects. *)
Definition loop_body (property : string) (parameter : JsValue)
           (nested : URLSearchParams.t) (urlSearchParams : URLSearchParams.t)
  : URLSearchParams.t :=
  match parameter with
  | JDate d =>
      let dateParam := toDateString d in
      set urlSearchParams property (JString dateParam)
  | JNull | JObject _ =>
      appendAll urlSearchParams nested
  | JArray l =>
      fold_left (fun sp value => append sp property value) l urlSearchParams
  | JUndefined | JBoolean _ | JNumber _ | JString _ =>
      set urlSearchParams property parameter
  end.

(** The name [for..in] gives to the [i]-th element of an array. *)
Definition index_name (i : nat) : string := decimal (Z.of_nat i).

(** [transformParameters(obj)].  [for..in] visits the enumerable
    properties of [obj]: those of an object, the indices of an array, and
    nothing for [undefined], [null], a date or a primitive that is not a
    string (the declared type, [object], admits no string). *)
Fixpoint transformParameters (obj : JsValue) : URLSearchParams.t :=
  match obj with
  | JObject properties =>
      (fix loop (ps : list (string * JsValue)) (urlSearchParams : URLSearchParams.t)
         : URLSearchParams.t :=
         match ps with
         | [] => urlSearchParams
         | (property, parameter) :: ps' =>
             loop ps'
               (loop_body property parameter (transformParameters parameter)
                  urlSearchParams)
         end) properties empty
  | JArray elements =>
      (fix loop (i : nat) (xs : list JsValue) (urlSearchParams : URLSearchParams.t)
         : URLSearchParams.t :=
         match xs with
         | [] => urlSearchParams
         | parameter :: xs' =>
             loop (S i) xs'
               (loop_body (index_name i) parameter
                  (transformParameters parameter) urlSearchParams)
         end) O elements empty
  | _ => empty
  end.

(** The loop over the properties of an object, from an arbitrary state. *)
Definition loop_from (urlSearchParams : URLSearchParams.t)
           (ps : list (string * JsValue)) : URLSearchParams.t :=
  fold_left
    (fun sp '(property, parameter) =>
       loop_body property parameter (transformParameters parameter) sp)
    ps urlSearchParams.

(** The values whose round of the loop calls [set]: these replace what
    the name held before. *)
Definition replaces (parameter : JsValue) : bool :=
  match parameter with
  | JDate _ | JUndefined | JBoolean _ | JNumber _ | JString _ => true
  | JNull | JArray _ | JObject _ => false
  end.


(** [v !== undefined && v !== null], the elements that [append] keeps. *)
Definition present (v : JsValue) : bool := negb (nullish v).

(** The values that the round of one property appends to the list of
    [name]: a nested object gives what its own flattening holds under
    [name], an array named [name] gives its elements. *)
Definition contribution (name : string) (entry : string * JsValue)
  : list JsValue :=
  match snd entry with
  | JNull | JObject _ => getAll (transformParameters (snd entry)) name
  | JArray l => if String.eqb (fst entry) name then filter present l else []
  | _ => []
  end.

(** The names of the leaves of a bag: the properties, at any depth,
    whose value is neither a nested object nor [null], that is a date, an
    array, a string, a number, a boolean or [undefined]. *)
Fixpoint leaf_names (v : JsValue) : list string :=
  match v with
  | JObject ps =>
      (fix go (ps : list (string * JsValue)) : list string :=
         match ps with
         | [] => []
         | (k, x) :: ps' =>
             match x with
             | JNull => []
             | JObject _ => leaf_names x
             | _ => [k]
             end ++ go ps'
         end) ps
  | _ => []
  end.

(** The leaves of a bag: the properties, at any depth, whose value is
    neither a nested object nor [null], in the order the loop meets
    them. *)
Fixpoint leaves (v : JsValue) : list (string * JsValue) :=
  match v with
  | JObject ps =>
      (fix go (ps : list (string * JsValue)) : list (string * JsValue) :=
         match ps with
         | [] => []
         | (k, x) :: ps' =>
             match x with
             | JNull => []
             | JObject _ => leaves x
             | _ => [(k, x)]
             end ++ go ps'
         end) ps
  | _ => []
  end.

(** The pairs that a leaf gives when no other leaf carries its name: the
    date string, the elements [append] keeps, the scalar, and nothing for
    [undefined]. *)
Definition leaf_pairs (entry : string * JsValue) : list (string * JsValue) :=
  match snd entry with
  | JDate d => [(fst entry, JString (toDateString d))]
  | JArray l => List.map (pair (fst entry)) (filter present l)
  | JUndefined | JNull | JObject _ => []
  | JBoolean _ | JNumber _ | JString _ => [(fst entry, snd entry)]
  end.

End Flatten.

(* ================================================================== *)
(** * The response envelope *)
(* ================================================================== *)

(** [JSendReply<T>] of [api-response.model.ts]; the payload type [T] is
    any value. *)
Module Envelope.

Record JSendReply : Type := {
  data : JsValue;
  message : string;
  status : string;
  statusCode : Z
}.

(** [obj[name]] on an object: the value of the property, if it has one. *)
Fixpoint get_property (ps : list (string * JsValue)) (name : string)
  : option JsValue :=
  match ps with
  | [] => None
  | (k, v) :: ps' => if String.eqb k name then Some v else get_property ps' name
  end.

Definition property (v : JsValue) (name : string) : option JsValue :=
  match v with
  | JObject ps => get_property ps name
  | _ => None
  end.

(** A decoded body is the envelope [e] when it is an object whose four
    properties hold the fields of [e], in whatever order the server wrote
    them and whatever else it added. *)
Definition encodes (v : JsValue) (e : JSendReply) : Prop :=
  (exists ps, v = JObject ps) /\
  property v "data" = Some (data e) /\
  property v "message" = Some (JString (message e)) /\
  property v "status" = Some (JString (status e)) /\
  property v "statusCode" = Some (JNumber (statusCode e)).

(** The body the server writes for [e] when it keeps the declared order
    of the fields. *)
Definition to_json (e : JSendReply) : JsValue :=
  JObject [("data", data e);
           ("message", JString (message e));
           ("status", JString (status e));
           ("statusCode", JNumber (statusCode e))].

End Envelope.

(* ================================================================== *)
(** * The HTTP client and its observables *)
(* ================================================================== *)

Module Rx.

(** A [Response] of [@angular/http], as far as the service looks at it:
    its status code and what calling [json()] on it does, which is to
    return the decoded body or to throw the [SyntaxError] of
    [JSON.parse]. *)
Inductive JsonOutcome : Type :=
| Parsed (v : JsValue)
| ParseError.

Record Response : Type := {
  status : Z;
  json : JsonOutcome
}.

(** What can be thrown, or travel on the error channel of an observable:
    a failed [Response], an exception of the language, or a decoded
    body. *)
Inductive Thrown : Type :=
| ThrownResponse (r : Response)
| ThrownSyntaxError
| ThrownTypeError
| ThrownValue (v : JsValue).

(** The outcome of a call that may throw. *)
Inductive Completion (A : Type) : Type :=
| Return (a : A)
| Throw (t : Thrown).

Arguments Return {A} a.
Arguments Throw {A} t.

Inductive Method : Type := GET | POST | PUT | DELETE.

(** What reaches the HTTP client: the method, the URL and, depending on
    the method, the [search] option or the body. *)
Record Request : Type := {
  method : Method;
  requestUrl : string;
  search : option URLSearchParams.t;
  body : option JsValue
}.

(** What a subscriber of a one-shot observable sees: one value followed
    by completion, or an error. *)
Inductive Notification (A : Type) : Type :=
| Next (a : A)
| Error (t : Thrown).

Arguments Next {A} a.
Arguments Error {A} t.

(** An observable is cold: nothing happens until it is subscribed.
    Subscribing runs it against the requests sent so far and gives the
    notification and the requests sent after it. *)
Definition Observable (A : Type) : Type :=
  list Request -> Notification A * list Request.

Definition subscribe {A} (o : Observable A) : Notification A * list Request :=
  o [].

(** RxJS 5 installs its operators by imports made for their effect:
    ['rxjs/add/operator/map'] and ['rxjs/add/operator/catch'] put [map]
    and [catch] on every observable, and ['rxjs/add/observable/throw']
    (or the whole of ['rxjs/Rx']) puts the static [throw] on the class
    [Observable].  A patch is there for every module once any module of
    the application has loaded it.  [Patches] tells whether
    [Observable.throw] is there when a method of the service runs; [map]
    and [catch] are loaded by the file of the service itself. *)
Record Patches : Type := {
  observable_throw : bool
}.

(** The observable that [Observable.throw(error)] makes, once the patch
    is loaded. *)
Definition throw {A} (error : Thrown) : Observable A :=
  fun sent => (Error error, sent).

(** The call [Observable.throw(error)]: without the patch the property
    is [undefined] and calling it is a [TypeError]. *)
Definition Observable_throw (rx : Patches) {A} (error : Thrown)
  : Completion (Observable A) :=
  if observable_throw rx then Return (throw error)
  else Throw ThrownTypeError.

(** [source.map(project)]: an exception of [project] becomes the error of
    the result. *)
Definition map {A B} (source : Observable A) (project : A -> Completion B)
  : Observable B :=
  fun sent =>
    let (n, sent') := source sent in
    match n with
    | Next a =>
        match project a with
        | Return b => (Next b, sent')
        | Throw t => (Error t, sent')
        end
    | Error t => (Error t, sent')
    end.

(** [source.catch(selector)]: on an error the result continues with the
    observable the selector returns; an exception of the selector becomes
    the error of the result. *)
Definition catch {A} (source : Observable A)
           (selector : Thrown -> Completion (Observable A)) : Observable A :=
  fun sent =>
    let (n, sent') := source sent in
    match n with
    | Next a => (Next a, sent')
    | Error t =>
        match selector t with
        | Return o => o sent'
        | Throw t' => (Error t', sent')
        end
    end.

End Rx.

(** Angular's [Http]: every method sends one request when its observable
    is subscribed.  The observable emits the response when its status is
    in the 2xx range and fails with the response otherwise.  The answer
    of the server may depend on the requests it was sent before, so the
    same request need not get the same response twice. *)
Module Http.

Import Rx.

Record t : Type := {
  server : list Request -> Request -> Response
}.

Definition ok (r : Response) : bool :=
  (200 <=? status r) && (status r <? 300).

Definition request (http : t) (req : Request) : Observable Response :=
  fun sent =>
    let res := server http sent req in
    (if ok res then Next res else Error (ThrownResponse res), sent ++ [req]).

Definition get (http : t) (url : string) (search : URLSearchParams.t) :=
  request http {| method := GET; requestUrl := url;
                  search := Some search; body := None |}.

Definition delete (http : t) (url : string) (search : URLSearchParams.t) :=
  request http {| method := DELETE; requestUrl := url;
                  search := Some search; body := None |}.

Definition post (http : t) (url : string) (data : JsValue) :=
  request http {| method := POST; requestUrl := url;
                  search := None; body := Some data |}.

Definition put (http : t) (url : string) (data : JsValue) :=
  request http {| method := PUT; requestUrl := url;
                  search := None; body := Some data |}.

End Http.

(* ================================================================== *)
(** * [BaseService] *)
(* ================================================================== *)

Module BaseService.

Import Rx.
Export Flatten.

Record t : Type := {
  _http : Http.t;
  url : string
}.

(** The patches that the file of the service loads itself (lines 1 to
    4: [Observable], [map], [catch]): [Observable.throw] is not among
    them. *)
Definition imports : Patches := {| observable_throw := false |}.

(** [constructor(private _http: Http, prefix: string)]. *)
Definition constructor (_http : Http.t) (prefix : string) : t :=
  {| _http := _http; url := "" |}.

(** A parameter with a default value: [None] is the omitted argument. *)
Definition or_default {A} (a : option A) (d : A) : A :=
  match a with
  | Some x => x
  | None => d
  end.

(** [data: any = null]: an argument that is [undefined] takes the
    default. *)
Definition or_null (data : JsValue) : JsValue :=
  match data with
  | JUndefined => JNull
  | _ => data
  end.

(** [extractData(res)]: [res.json() || {}]. *)
Definition extractData (res : Response) : Completion JsValue :=
  match json res with
  | Parsed v => Return (if truthy v then v else empty_object)
  | ParseError => Throw ThrownSyntaxError
  end.

(** [errorHandler(err)].  What is caught need not be a [Response]: on
    anything else [err.json] is not a function and the call throws a
    [TypeError].  [rx] is the state of the patches when the handler
    runs. *)
Definition errorHandler (rx : Patches) (err : Thrown)
  : Completion (Observable JsValue) :=
  match err with
  | ThrownResponse r =>
      match json r with
      | Parsed body => Observable_throw rx (ThrownValue body)
      | ParseError => Throw ThrownSyntaxError
      end
  | ThrownSyntaxError | ThrownTypeError | ThrownValue _ =>
      Throw ThrownTypeError
  end.

Definition get (rx : Patches) (this : t) (endpoint : option string)
           (queryParams : JsValue) : Observable JsValue :=
  let endpoint := or_default endpoint "" in
  let requestUrl := (url this ++ "/" ++ endpoint)%string in
  let search := transformParameters queryParams in
  catch (map (Http.get (_http this) requestUrl search) extractData)
        (errorHandler rx).

Definition getExternal (rx : Patches) (this : t) (url : string)
           (queryParams : JsValue) : Observable JsValue :=
  let search := transformParameters queryParams in
  catch (map (Http.get (_http this) url search) extractData)
        (errorHandler rx).

Definition post (rx : Patches) (this : t) (endpoint : option string)
           (data : JsValue) : Observable JsValue :=
  let endpoint := or_default endpoint "" in
  let data := or_null data in
  catch (map (Http.post (_http this) (url this ++ "/" ++ endpoint)%string data)
             extractData)
        (errorHandler rx).

Definition put (rx : Patches) (this : t) (endpoint : option string)
           (data : JsValue) : Observable JsValue :=
  let endpoint := or_default endpoint "" in
  let data := or_null data in
  catch (map (Http.put (_http this) (url this ++ "/" ++ endpoint)%string data)
             extractData)
        (errorHandler rx).

Definition delete (rx : Patches) (this : t) (endpoint : option string)
           (queryParams : JsValue) : Observable JsValue :=
  let endpoint := or_default endpoint "" in
  let search := transformParameters queryParams in
  catch (map (Http.delete (_http this) (url this ++ "/" ++ endpoint)%string
                          search)
             extractData)
        (errorHandler rx).

(** The five protected operations, as a service that extends the class
    calls them. *)
Inductive Call : Type :=
| CallGet (endpoint : option string) (queryParams : JsValue)
| CallGetExternal (url : string) (queryParams : JsValue)
| CallPost (endpoint : option string) (data : JsValue)
| CallPut (endpoint : option string) (data : JsValue)
| CallDelete (endpoint : option string) (queryParams : JsValue).

Definition perform (rx : Patches) (this : t) (c : Call)
  : Observable JsValue :=
  match c with
  | CallGet endpoint queryParams => get rx this endpoint queryParams
  | CallGetExternal url queryParams => getExternal rx this url queryParams
  | CallPost endpoint data => post rx this endpoint data
  | CallPut endpoint data => put rx this endpoint data
  | CallDelete endpoint queryParams => delete rx this endpoint queryParams
  end.

(** The request that reaches the HTTP client when the result of a call is
    subscribed ([perform_sends]). *)
Definition request_of (this : t) (c : Call) : Request :=
  match c with
  | CallGet endpoint queryParams =>
      {| method := GET;
         requestUrl := (url this ++ "/" ++ or_default endpoint "")%string;
         search := Some (transformParameters queryParams);
         body := None |}
  | CallGetExternal url queryParams =>
      {| method := GET;
         requestUrl := url;
         search := Some (transformParameters queryParams);
         body := None |}
  | CallPost endpoint data =>
      {| method := POST;
         requestUrl := (url this ++ "/" ++ or_default endpoint "")%string;
         search := None;
         body := Some (or_null data) |}
  | CallPut endpoint data =>
      {| method := PUT;
         requestUrl := (url this ++ "/" ++ or_default endpoint "")%string;
         search := None;
         body := Some (or_null data) |}
  | CallDelete endpoint queryParams =>
      {| method := DELETE;
         requestUrl := (url this ++ "/" ++ or_default endpoint "")%string;
         search := Some (transformParameters queryParams);
         body := None |}
  end.

End BaseService.

(* ================================================================== *)
(** * Facts about the calendar *)
(* ================================================================== *)

Module DateFacts.

Import JS.

(** Consecutive years are [DaysInYear] apart. *)
Lemma DayFromYear_succ (y : Z) :
  DayFromYear (y + 1) = DayFromYear y + DaysInYear y.
Proof.
  unfold DayFromYear, DaysInYear.
  destruct (Z.eqb_spec (y mod 4) 0), (Z.eqb_spec (y mod 100) 0),
           (Z.eqb_spec (y mod 400) 0); cbn [negb];
    Z.div_mod_to_equations; lia.
Qed.

(** [YearFromTime t] is the year whose days include the day of [t]. *)
Lemma YearFromTime_spec (t : Z) :
  DayFromYear (YearFromTime t) <= Day t < DayFromYear (YearFromTime t + 1).
Proof.
  unfold YearFromTime; generalize (Day t); intros d.
  set (y := 1970 + 400 * d / 146097).
  assert (Hlo : DayFromYear (y - 1) <= d)
    by (unfold DayFromYear, y; Z.div_mod_to_equations; lia).
  assert (Hhi : d < DayFromYear (y + 2))
    by (unfold DayFromYear, y; Z.div_mod_to_equations; lia).
  destruct (Z.ltb_spec d (DayFromYear y)).
  - replace (y - 1 + 1) with y by lia; lia.
  - destruct (Z.leb_spec (DayFromYear (y + 1)) d).
    + replace (y + 1 + 1) with (y + 2) by lia; lia.
    + lia.
Qed.

Lemma DayWithinYear_range (t : Z) :
  0 <= DayWithinYear t < DaysInYear (YearFromTime t).
Proof.
  unfold DayWithinYear.
  pose proof (YearFromTime_spec t) as H.
  rewrite DayFromYear_succ in H; lia.
Qed.

Lemma DateFromTime_range (t : Z) : 1 <= DateFromTime t <= 31.
Proof.
  pose proof (DayWithinYear_range t) as H.
  unfold DateFromTime, MonthFromTime, InLeapYear in *.
  set (d := DayWithinYear t) in *.
  assert (Hy : DaysInYear (YearFromTime t) = 365 \/
               DaysInYear (YearFromTime t) = 366).
  { unfold DaysInYear.
    destruct (negb _); [auto|]. destruct (negb _); [auto|].
    destruct (negb _); auto. }
  destruct (Z.eqb_spec (DaysInYear (YearFromTime t)) 366) as [E|E];
    repeat match goal with
           | |- context [?a <? ?b] => destruct (Z.ltb_spec a b)
           end; lia.
Qed.

(** [toDateString] reads the calendar day of the time value and nothing
    else. *)
Lemma DateString_day_only (t t' : Z) :
  Day t = Day t' -> DateString t = DateString t'.
Proof.
  intros H.
  assert (Hy : YearFromTime t = YearFromTime t')
    by (unfold YearFromTime; now rewrite H).
  assert (Hd : DayWithinYear t = DayWithinYear t')
    by (unfold DayWithinYear; now rewrite H, Hy).
  assert (Hl : InLeapYear t = InLeapYear t')
    by (unfold InLeapYear; now rewrite Hy).
  assert (Hm : MonthFromTime t = MonthFromTime t')
    by (unfold MonthFromTime; now rewrite Hd, Hl).
  unfold DateString, DateFromTime, WeekDay.
  now rewrite H, Hy, Hd, Hl, Hm.
Qed.

End DateFacts.

(* ================================================================== *)
(** * Facts about [URLSearchParams] *)
(* ================================================================== *)

Module ParamsFacts.

Import URLSearchParams.

Ltac eqb_cases k k' :=
  let E := fresh "E" in
  destruct (String.eqb k k') eqn:E;
  [apply String.eqb_eq in E; subst | apply String.eqb_neq in E].

Lemma map_get_none (m : t) (param : string) :
  ~ In param (keys m) -> map_get m param = None.
Proof.
  induction m as [|[k vs] m IH]; simpl; intros H; [reflexivity|].
  eqb_cases k param.
  - exfalso; apply H; now left.
  - apply IH; intros Hin; apply H; now right.
Qed.

Lemma map_get_set_same (m : t) (param : string) (l : list JsValue) :
  map_get (map_set m param l) param = Some l.
Proof.
  induction m as [|[k vs] m IH]; simpl.
  - now rewrite String.eqb_refl.
  - eqb_cases k param; simpl.
    + now rewrite String.eqb_refl.
    + apply String.eqb_neq in E; now rewrite E.
Qed.

Lemma map_get_set_other (m : t) (param other : string) (l : list JsValue) :
  param <> other -> map_get (map_set m param l) other = map_get m other.
Proof.
  intros Hne.
  induction m as [|[k vs] m IH]; simpl.
  - apply String.eqb_neq in Hne; now rewrite Hne.
  - eqb_cases k param; simpl.
    + apply String.eqb_neq in Hne; now rewrite Hne.
    + now rewrite IH.
Qed.

Lemma map_get_delete_other (m : t) (param other : string) :
  param <> other -> map_get (map_delete m param) other = map_get m other.
Proof.
  intros Hne.
  induction m as [|[k vs] m IH]; simpl; [reflexivity|].
  eqb_cases k param; simpl.
  - apply String.eqb_neq in Hne; now rewrite Hne.
  - now rewrite IH.
Qed.

Lemma keys_map_set_in (m : t) (param : string) (l : list JsValue) :
  In param (keys m) -> keys (map_set m param l) = keys m.
Proof.
  induction m as [|[k vs] m IH]; simpl; intros H; [contradiction|].
  eqb_cases k param; simpl; [reflexivity|].
  f_equal; apply IH; destruct H; [contradiction|assumption].
Qed.

Lemma map_set_fresh (m : t) (param : string) (l : list JsValue) :
  ~ In param (keys m) -> map_set m param l = m ++ [(param, l)].
Proof.
  induction m as [|[k vs] m IH]; simpl; intros H; [reflexivity|].
  eqb_cases k param.
  - exfalso; apply H; now left.
  - f_equal; apply IH; intros Hin; apply H; now right.
Qed.

Lemma map_delete_fresh (m : t) (param : string) :
  ~ In param (keys m) -> map_delete m param = m.
Proof.
  induction m as [|[k vs] m IH]; simpl; intros H; [reflexivity|].
  eqb_cases k param.
  - exfalso; apply H; now left.
  - f_equal; apply IH; intros Hin; apply H; now right.
Qed.

Lemma keys_map_set (m : t) (param : string) (l : list JsValue) :
  keys (map_set m param l) = keys m \/
  (~ In param (keys m) /\ keys (map_set m param l) = keys m ++ [param]).
Proof.
  destruct (in_dec string_dec param (keys m)) as [Hin|Hout].
  - left; now apply keys_map_set_in.
  - right; split; [assumption|].
    rewrite map_set_fresh by assumption.
    unfold keys; now rewrite map_app.
Qed.

Lemma NoDup_snoc {A} (l : list A) (a : A) :
  NoDup l -> ~ In a l -> NoDup (l ++ [a]).
Proof.
  induction l as [|b l IH]; simpl; intros Hl Ha.
  - constructor; [intros []|constructor].
  - inversion Hl as [|? ? Hb Hl']; subst.
    constructor.
    + rewrite in_app_iff; simpl; intros [H|[H|[]]]; [contradiction|].
      apply Ha; now left.
    + apply IH; [assumption|]. intros H; apply Ha; now right.
Qed.

Lemma NoDup_map_set (m : t) (param : string) (l : list JsValue) :
  NoDup (keys m) -> NoDup (keys (map_set m param l)).
Proof.
  intros Hm.
  destruct (keys_map_set m param l) as [->|[Hout ->]]; [assumption|].
  now apply NoDup_snoc.
Qed.

Lemma keys_map_delete_incl (m : t) (param : string) :
  incl (keys (map_delete m param)) (keys m).
Proof.
  induction m as [|[k vs] m IH]; simpl; [apply incl_refl|].
  eqb_cases k param; simpl.
  - apply incl_tl, incl_refl.
  - intros x [<-|Hx]; [now left|right; now apply IH].
Qed.

Lemma NoDup_map_delete (m : t) (param : string) :
  NoDup (keys m) -> NoDup (keys (map_delete m param)).
Proof.
  induction m as [|[k vs] m IH]; simpl; intros H; [constructor|].
  inversion H as [|? ? Hk Hm]; subst.
  eqb_cases k param; simpl; [assumption|].
  constructor; [|now apply IH].
  intros Hin; apply Hk; now apply (keys_map_delete_incl m param).
Qed.

(** ** [getAll] after each operation *)

Lemma getAll_map_set_same (m : t) (param : string) (l : list JsValue) :
  getAll (map_set m param l) param = l.
Proof. unfold getAll; now rewrite map_get_set_same. Qed.

Lemma getAll_map_set_other (m : t) (param other : string) (l : list JsValue) :
  param <> other -> getAll (map_set m param l) other = getAll m other.
Proof. intros H; unfold getAll; now rewrite map_get_set_other. Qed.

Lemma getAll_set_other (sp : t) (param other : string) (val : JsValue) :
  param <> other -> getAll (set sp param val) other = getAll sp other.
Proof.
  intros H; unfold set, getAll.
  destruct (nullish val).
  - now rewrite map_get_delete_other.
  - now rewrite map_get_set_other.
Qed.

Lemma getAll_set_same (sp : t) (param : string) (val : JsValue) :
  nullish val = false -> getAll (set sp param val) param = [val].
Proof.
  intros H; unfold set; rewrite H; apply getAll_map_set_same.
Qed.

Lemma getAll_append_same (sp : t) (param : string) (val : JsValue) :
  getAll (append sp param val) param =
  getAll sp param ++ (if nullish val then [] else [val]).
Proof.
  unfold append; destruct (nullish val).
  - now rewrite app_nil_r.
  - apply getAll_map_set_same.
Qed.

Lemma getAll_append_other (sp : t) (param other : string) (val : JsValue) :
  param <> other -> getAll (append sp param val) other = getAll sp other.
Proof.
  intros H; unfold append; destruct (nullish val); [reflexivity|].
  now apply getAll_map_set_other.
Qed.

Lemma getAll_fresh (sp : t) (param : string) :
  ~ In param (keys sp) -> getAll sp param = [].
Proof. intros H; unfold getAll; now rewrite map_get_none. Qed.

Lemma getAll_cons (k : string) (vs : list JsValue) (sp : t) (param : string) :
  getAll ((k, vs) :: sp) param =
  if String.eqb k param then vs else getAll sp param.
Proof. unfold getAll; simpl; now destruct (String.eqb k param). Qed.

(** [appendAll] concatenates, name by name. *)
Lemma getAll_appendAll (other sp : t) (param : string) :
  NoDup (keys other) ->
  getAll (appendAll sp other) param = getAll sp param ++ getAll other param.
Proof.
  revert sp; induction other as [|[k vs] other IH]; intros sp Hnd.
  - simpl; now rewrite app_nil_r.
  - simpl in Hnd; inversion Hnd as [|? ? Hk Hnd']; subst.
    change (appendAll sp ((k, vs) :: other))
      with (appendAll (map_set sp k (getAll sp k ++ vs)) other).
    rewrite IH, getAll_cons by assumption.
    eqb_cases k param.
    + rewrite getAll_map_set_same, (getAll_fresh other) by assumption.
      now rewrite app_nil_r.
    + now rewrite getAll_map_set_other by assumption.
Qed.

Lemma NoDup_appendAll (other sp : t) :
  NoDup (keys sp) -> NoDup (keys (appendAll sp other)).
Proof.
  revert sp; induction other as [|[k vs] other IH]; intros sp H; [assumption|].
  apply IH; now apply NoDup_map_set.
Qed.

Lemma NoDup_set (sp : t) (param : string) (val : JsValue) :
  NoDup (keys sp) -> NoDup (keys (set sp param val)).
Proof.
  intros H; unfold set; destruct (nullish val);
    [now apply NoDup_map_delete | now apply NoDup_map_set].
Qed.

Lemma NoDup_append (sp : t) (param : string) (val : JsValue) :
  NoDup (keys sp) -> NoDup (keys (append sp param val)).
Proof.
  intros H; unfold append; destruct (nullish val);
    [assumption | now apply NoDup_map_set].
Qed.

(** The pairs named [param] carry the values stored under [param]. *)
Lemma values_named_getAll (sp : t) (param : string) :
  NoDup (keys sp) -> values_named sp param = getAll sp param.
Proof.
  unfold values_named, pairs, getAll.
  induction sp as [|[k vs] sp IH]; simpl; intros H; [reflexivity|].
  inversion H as [|? ? Hk Hsp]; subst.
  rewrite filter_app, map_app, IH by assumption.
  eqb_cases k param.
  - rewrite (map_get_none sp) by assumption. rewrite app_nil_r.
    clear; induction vs as [|v vs IH]; simpl; [reflexivity|].
    rewrite String.eqb_refl; simpl; now f_equal.
  - replace (filter _ (List.map (pair k) vs)) with (@nil (string * JsValue)).
    + reflexivity.
    + apply String.eqb_neq in E.
      clear - E; induction vs as [|v vs IH]; simpl; [reflexivity|].
      now rewrite E.
Qed.

End ParamsFacts.

(* ================================================================== *)
(** * Facts about the flattening loop *)
(* ================================================================== *)

Module FlattenFacts.

Import URLSearchParams Flatten ParamsFacts.

Lemma transformParameters_object (ps : list (string * JsValue)) :
  transformParameters (JObject ps) = loop_from empty ps.
Proof.
  unfold loop_from; simpl.
  generalize empty.
  induction ps as [|[property parameter] ps IH]; intros sp; simpl;
    [reflexivity | apply IH].
Qed.

Lemma loop_from_app (sp : t) (ps qs : list (string * JsValue)) :
  loop_from sp (ps ++ qs) = loop_from (loop_from sp ps) qs.
Proof. unfold loop_from; apply fold_left_app. Qed.

Lemma loop_from_cons (sp : t) (property : string) (parameter : JsValue)
      (ps : list (string * JsValue)) :
  loop_from sp ((property, parameter) :: ps) =
  loop_from
    (loop_body property parameter (transformParameters parameter) sp) ps.
Proof. reflexivity. Qed.

(** The rounds of an array: one [append] per element. *)
Lemma NoDup_append_all (property : string) (l : list JsValue) (sp : t) :
  NoDup (keys sp) ->
  NoDup (keys (fold_left (fun sp value => append sp property value) l sp)).
Proof.
  revert sp; induction l as [|v l IH]; intros sp H; simpl; [assumption|].
  apply IH; now apply NoDup_append.
Qed.

Lemma getAll_append_all_same (property : string) (l : list JsValue) (sp : t) :
  getAll (fold_left (fun sp value => append sp property value) l sp) property =
  getAll sp property ++ filter present l.
Proof.
  revert sp; induction l as [|v l IH]; intros sp; simpl.
  - now rewrite app_nil_r.
  - rewrite IH, getAll_append_same. unfold present.
    destruct (nullish v); simpl.
    + now rewrite app_nil_r.
    + now rewrite <- app_assoc.
Qed.

Lemma getAll_append_all_other (property other : string) (l : list JsValue)
      (sp : t) :
  property <> other ->
  getAll (fold_left (fun sp value => append sp property value) l sp) other =
  getAll sp other.
Proof.
  intros Hne; revert sp; induction l as [|v l IH]; intros sp; simpl;
    [reflexivity|].
  rewrite IH; now apply getAll_append_other.
Qed.

(** The map keeps its names pairwise distinct through the loop, whatever
    a nested call returned. *)
Lemma NoDup_loop_body (property : string) (parameter : JsValue)
      (nested sp : t) :
  NoDup (keys sp) -> NoDup (keys (loop_body property parameter nested sp)).
Proof.
  intros H; destruct parameter; simpl;
    auto using NoDup_set, NoDup_appendAll, NoDup_append_all.
Qed.

Lemma NoDup_loop_from (ps : list (string * JsValue)) (sp : t) :
  NoDup (keys sp) -> NoDup (keys (loop_from sp ps)).
Proof.
  revert sp; induction ps as [|[property parameter] ps IH]; intros sp H;
    [assumption|].
  rewrite loop_from_cons; apply IH; now apply NoDup_loop_body.
Qed.

Lemma NoDup_transformParameters_object (ps : list (string * JsValue)) :
  NoDup (keys (transformParameters (JObject ps))).
Proof.
  rewrite transformParameters_object; apply NoDup_loop_from; constructor.
Qed.

Lemma values_named_object (ps : list (string * JsValue)) (name : string) :
  values_named (transformParameters (JObject ps)) name =
  getAll (transformParameters (JObject ps)) name.
Proof. apply values_named_getAll, NoDup_transformParameters_object. Qed.

(** What one round does to the list of [name], when it does not replace
    it. *)
Lemma getAll_loop_body (property : string) (parameter : JsValue) (sp : t)
      (name : string) :
  (replaces parameter = true -> property <> name) ->
  getAll (loop_body property parameter (transformParameters parameter) sp) name
  = getAll sp name ++ contribution name (property, parameter).
Proof.
  intros Hne; unfold contribution.
  destruct parameter; simpl fst; simpl snd; cbv beta iota;
    try (simpl loop_body; rewrite getAll_set_other, app_nil_r;
         [reflexivity | now apply Hne]).
  - (* null *)
    simpl; now rewrite app_nil_r.
  - (* array *)
    change (loop_body property (JArray elements)
              (transformParameters (JArray elements)) sp)
      with (fold_left (fun sp value => append sp property value) elements sp).
    eqb_cases property name.
    + apply getAll_append_all_same.
    + rewrite getAll_append_all_other, app_nil_r by assumption; reflexivity.
  - (* object *)
    change (loop_body property (JObject properties)
              (transformParameters (JObject properties)) sp)
      with (appendAll sp (transformParameters (JObject properties))).
    apply getAll_appendAll, NoDup_transformParameters_object.
Qed.

(** The list of [name] after the rounds of [ps], none of which replaces
    it: every round appends its contribution. *)
Lemma getAll_loop_from (ps : list (string * JsValue)) (sp : t) (name : string) :
  (forall property parameter,
      In (property, parameter) ps -> replaces parameter = true ->
      property <> name) ->
  getAll (loop_from sp ps) name =
  getAll sp name ++ flat_map (contribution name) ps.
Proof.
  revert sp; induction ps as [|[property parameter] ps IH]; intros sp H.
  - simpl; now rewrite app_nil_r.
  - rewrite loop_from_cons, IH.
    + rewrite getAll_loop_body.
      * simpl flat_map; now rewrite app_assoc.
      * intros Hr; apply (H property parameter); [now left | assumption].
    + intros p v Hin; apply H; now right.
Qed.

(** In an object the names are distinct, so no later property carries
    the name of an earlier one. *)
Lemma later_names_differ (pre post : list (string * JsValue)) (k : string)
      (v : JsValue) :
  NoDup (List.map fst (pre ++ (k, v) :: post)) ->
  forall property parameter, In (property, parameter) post -> property <> k.
Proof.
  intros Hnd property parameter Hin ->.
  rewrite map_app in Hnd; simpl in Hnd.
  apply NoDup_remove_2 in Hnd; apply Hnd.
  rewrite in_app_iff; right.
  now apply (in_map fst) in Hin.
Qed.

(** ** The names of the encoding *)

Lemma keys_map_set_incl (m : t) (param : string) (l : list JsValue) :
  incl (keys (map_set m param l)) (param :: keys m).
Proof.
  destruct (keys_map_set m param l) as [->|[_ ->]].
  - apply incl_tl, incl_refl.
  - intros x Hx; apply in_app_iff in Hx; simpl in *; tauto.
Qed.

Lemma keys_set_incl (sp : t) (param : string) (val : JsValue) :
  incl (keys (set sp param val)) (param :: keys sp).
Proof.
  unfold set; destruct (nullish val).
  - apply incl_tl, keys_map_delete_incl.
  - apply keys_map_set_incl.
Qed.

Lemma keys_append_all_incl (property : string) (l : list JsValue) (sp : t) :
  incl (keys (fold_left (fun sp value => append sp property value) l sp))
       (property :: keys sp).
Proof.
  revert sp; induction l as [|v l IH]; intros sp; simpl.
  - apply incl_tl, incl_refl.
  - intros x Hx; apply IH in Hx; destruct Hx as [<-|Hx]; [now left|].
    unfold append in Hx; destruct (nullish v); [now right|].
    now apply keys_map_set_incl in Hx.
Qed.

Lemma keys_appendAll_incl (other sp : t) :
  incl (keys (appendAll sp other)) (keys sp ++ keys other).
Proof.
  revert sp; induction other as [|[k vs] other IH]; intros sp.
  - simpl; rewrite app_nil_r; apply incl_refl.
  - change (appendAll sp ((k, vs) :: other))
      with (appendAll (map_set sp k (getAll sp k ++ vs)) other).
    intros x Hx; apply IH in Hx.
    apply in_app_iff in Hx; destruct Hx as [Hx|Hx].
    + apply keys_map_set_incl in Hx.
      apply in_app_iff; simpl; destruct Hx as [<-|Hx]; auto.
    + apply in_app_iff; simpl; auto.
Qed.

(** Induction on a value through the properties of its objects. *)
Lemma JsValue_object_ind (P : JsValue -> Prop) :
  (forall v, (forall ps, v <> JObject ps) -> P v) ->
  (forall ps, Forall (fun e => P (snd e)) ps -> P (JObject ps)) ->
  forall v, P v.
Proof.
  intros Hbase Hobj.
  refine (fix F (v : JsValue) : P v :=
            match v with
            | JObject ps =>
                Hobj ps
                  ((fix G (ps : list (string * JsValue))
                      : Forall (fun e => P (snd e)) ps :=
                      match ps with
                      | [] => Forall_nil _
                      | e :: ps' => Forall_cons e (F (snd e)) (G ps')
                      end) ps)
            | other => Hbase other _
            end); intros ps; discriminate.
Qed.

Lemma leaf_names_object (ps : list (string * JsValue)) :
  leaf_names (JObject ps) =
  flat_map (fun e => match snd e with
                     | JNull => []
                     | JObject _ => leaf_names (snd e)
                     | _ => [fst e]
                     end) ps.
Proof.
  simpl; induction ps as [|[k x] ps IH]; simpl; [reflexivity|].
  now rewrite IH.
Qed.

(** Every name of the encoding is a name that the bag, or an object
    nested in it, gives to a date, an array or a scalar; the name of a
    nested object is not among them and no name is composed. *)
Lemma keys_leaf_names (v : JsValue) :
  forall ps, v = JObject ps ->
  incl (keys (transformParameters v)) (leaf_names v).
Proof.
  induction v as [v Hv | qs IH] using JsValue_object_ind; intros ps E.
  - now destruct (Hv ps).
  - clear ps E.
    rewrite transformParameters_object, leaf_names_object.
    assert (Hgen : forall sp,
               incl (keys (loop_from sp qs))
                    (keys sp ++
                     flat_map (fun e => match snd e with
                                        | JNull => []
                                        | JObject _ => leaf_names (snd e)
                                        | _ => [fst e]
                                        end) qs)).
    { induction qs as [|[k x] qs IHqs]; intros sp.
      - simpl; rewrite app_nil_r; apply incl_refl.
      - inversion IH as [|? ? Hx Hqs]; subst; simpl in Hx.
        rewrite loop_from_cons.
        intros n Hn; apply (IHqs Hqs) in Hn.
        apply in_app_iff in Hn; simpl flat_map; simpl fst; simpl snd.
        rewrite !in_app_iff.
        destruct Hn as [Hn|Hn]; [|auto].
        destruct x; simpl loop_body in Hn;
          try (apply keys_set_incl in Hn; simpl in *; tauto).
        + simpl in Hn; auto.
        + apply keys_append_all_incl in Hn; simpl in *; tauto.
        + apply keys_appendAll_incl, in_app_iff in Hn.
          destruct Hn as [Hn|Hn]; [auto|].
          right; left; now apply (Hx properties eq_refl). }
    intros n Hn; now apply Hgen in Hn.
Qed.

End FlattenFacts.

(* ================================================================== *)
(** * Query parameter flattening: the properties *)
(* ================================================================== *)

Module FlattenProperties.

Import URLSearchParams Flatten ParamsFacts FlattenFacts DateFacts.






(** C10: an entry whose value is [null] takes the branch of the nested
    objects, the recursive call on [null] returns an empty encoding, and
    the flattening of the bag is the flattening of the bag without that
    entry. *)
Theorem C10_null_entry_dropped (pre post : list (string * JsValue))
        (k : string) :
  (forall nested sp, loop_body k JNull nested sp = appendAll sp nested) /\
  pairs (transformParameters JNull) = [] /\
  transformParameters (JObject (pre ++ (k, JNull) :: post)) =
  transformParameters (JObject (pre ++ post)).
Proof.
  split; [reflexivity|]. split; [reflexivity|].
  rewrite !transformParameters_object, !loop_from_app, loop_from_cons.
  reflexivity.
Qed.

(** C7, with the condition it needs: in a bag that holds a date under [k], the pairs
    named [k] start with one pair whose value is [toDateString] of the
    date, followed only by what nested objects later in the bag hold
    under [k]; without those it is the single pair named [k].  The value
    depends on the calendar day of the date alone. *)
Theorem C7_date_entry_pair (pre post : list (string * JsValue)) (k : string)
        (d : Date) :
  NoDup (List.map fst (pre ++ (k, JDate d) :: post)) ->
  let encoding := transformParameters (JObject (pre ++ (k, JDate d) :: post)) in
  values_named encoding k =
    JString (toDateString d) :: flat_map (contribution k) post /\
  ((forall e, In e post -> contribution k e = []) ->
   values_named encoding k = [JString (toDateString d)]) /\
  (forall t t', d = ValidDate t -> Day t' = Day t ->
                toDateString (ValidDate t') = toDateString d).
Proof.
  intros Hnd encoding.
  assert (Hmain : values_named encoding k =
                  JString (toDateString d) :: flat_map (contribution k) post).
  { unfold encoding; rewrite values_named_object.
    rewrite transformParameters_object, loop_from_app, loop_from_cons.
    rewrite getAll_loop_from.
    - simpl loop_body; now rewrite getAll_set_same.
    - intros p v Hin _; exact (later_names_differ pre post k (JDate d) Hnd p v Hin). }
  split; [exact Hmain|]. split.
  - intros Hnone; rewrite Hmain; f_equal.
    clear - Hnone; induction post as [|e post IH]; simpl; [reflexivity|].
    rewrite (Hnone e), IH; [reflexivity | | now left].
    intros e' He'; apply Hnone; now right.
  - intros t t' -> Hday; simpl; now apply DateString_day_only.
Qed.

Lemma C7_date_entry_witness :
  let pre := [("page", JNumber 1)] in
  let post := [("filter", JObject [("due", JNumber 7)])] in
  let d := ValidDate 1793491200123 in
  NoDup (List.map fst (pre ++ ("due", JDate d) :: post)) /\
  values_named
    (transformParameters (JObject (pre ++ ("due", JDate d) :: post))) "due" =
  [JString "Sun Nov 01 2026"; JNumber 7].
Proof.
  intros pre post d.
  assert (Hnd : NoDup (List.map fst (pre ++ ("due", JDate d) :: post))).
  { repeat constructor; simpl; intuition discriminate. }
  split; [exact Hnd|].
  exact (proj1 (C7_date_entry_pair pre post "due" d Hnd)).
Defined.

(** C7 as stated fails: a nested object later in the bag that holds the
    same name adds a second pair named [k]. *)
Lemma C7_counterexample :
  let bag := JObject [("k", JDate (ValidDate 0));
                      ("x", JObject [("k", JNumber 1)])] in
  values_named (transformParameters bag) "k" =
    [JString "Thu Jan 01 1970"; JNumber 1] /\
  List.length (values_named (transformParameters bag) "k") <> 1%nat.
Proof. split; [reflexivity | discriminate]. Qed.

(** C6, for the elements that are kept: in a bag that holds an array under [k], the pairs
    named [k] contain, in the order of the array, exactly one pair per
    element that is neither [undefined] nor [null]; they come after what
    earlier nested objects hold under [k] and before what later ones
    do. *)
Theorem C6_array_entry_pairs (pre post : list (string * JsValue)) (k : string)
        (l : list JsValue) :
  NoDup (List.map fst (pre ++ (k, JArray l) :: post)) ->
  values_named (transformParameters (JObject (pre ++ (k, JArray l) :: post))) k
  = values_named (transformParameters (JObject pre)) k
    ++ filter present l
    ++ flat_map (contribution k) post.
Proof.
  intros Hnd.
  rewrite !values_named_object.
  rewrite !transformParameters_object, loop_from_app, loop_from_cons.
  rewrite getAll_loop_from.
  - change (loop_body k (JArray l) (transformParameters (JArray l))
              (loop_from empty pre))
      with (fold_left (fun sp value => append sp k value) l
              (loop_from empty pre)).
    now rewrite getAll_append_all_same, app_assoc.
  - intros p v Hin _; exact (later_names_differ pre post k (JArray l) Hnd p v Hin).
Qed.

Lemma C6_array_entry_witness :
  let post := [("page", JNumber 2)] in
  let l := [JString "a"; JNumber 7; JBoolean true] in
  NoDup (List.map fst ([] ++ ("tag", JArray l) :: post)) /\
  values_named (transformParameters (JObject ([] ++ ("tag", JArray l) :: post)))
    "tag" = l.
Proof.
  intros post l.
  assert (Hnd : NoDup (List.map fst ([] ++ ("tag", JArray l) :: post))).
  { repeat constructor; simpl; intuition discriminate. }
  split; [exact Hnd|].
  exact (C6_array_entry_pairs [] post "tag" l Hnd).
Defined.

(** C6 as stated fails: [append] ignores an element that is [null], so
    an array of three elements can give two pairs. *)
Lemma C6_counterexample :
  let bag := JObject [("k", JArray [JNumber 1; JNull; JNumber 3])] in
  pairs (transformParameters bag) = [("k", JNumber 1); ("k", JNumber 3)] /\
  List.length (values_named (transformParameters bag) "k") <> 3%nat.
Proof. split; [reflexivity | discriminate]. Qed.

(** C5, with the condition it needs: every name of the encoding is the
    name of a leaf of the bag (a property, at any depth, whose value is
    neither a nested object nor [null]), so no name is prefixed by the
    name of a parent; and the flattening of a nested object is appended
    under the names it has in the nested object: for every name that no
    later entry of the outer bag holding a date, a string, a number, a
    boolean or [undefined] carries, the pairs of that name are those
    gathered before the nested object, then those of the nested object,
    then those appended by the later entries.  A later date or scalar
    entry of that name replaces them and a later [undefined] entry
    deletes them. *)
Theorem C5_nested_object_merged (pre post inner : list (string * JsValue))
        (x y : string) :
  let bag := JObject (pre ++ (x, JObject inner) :: post) in
  incl (keys (transformParameters bag)) (leaf_names bag) /\
  ((forall property parameter,
       In (property, parameter) post -> replaces parameter = true ->
       property <> y) ->
   values_named (transformParameters bag) y
   = values_named (transformParameters (JObject pre)) y
     ++ values_named (transformParameters (JObject inner)) y
     ++ flat_map (contribution y) post).
Proof.
  intros bag; split.
  - now apply (keys_leaf_names bag (pre ++ (x, JObject inner) :: post)).
  - intros Hkeep; unfold bag.
    rewrite !values_named_object.
    rewrite (transformParameters_object (pre ++ _)), loop_from_app,
      loop_from_cons.
    rewrite getAll_loop_from by assumption.
    rewrite getAll_loop_body by discriminate.
    unfold contribution at 1; simpl snd; cbv iota.
    now rewrite <- transformParameters_object, app_assoc.
Qed.

Lemma C5_nested_object_witness :
  let inner := [("y", JNumber 1)] in
  let post := [("z", JString "last")] in
  let bag := JObject ([] ++ ("x", JObject inner) :: post) in
  (forall property parameter,
      In (property, parameter) post -> replaces parameter = true ->
      property <> "y") /\
  incl (keys (transformParameters bag)) ["y"; "z"] /\
  values_named (transformParameters bag) "y" = [JNumber 1] /\
  values_named (transformParameters bag) "x.y" = [].
Proof.
  intros inner post bag.
  assert (Hkeep : forall property parameter,
             In (property, parameter) post -> replaces parameter = true ->
             property <> "y").
  { intros p v [Heq|[]] _; inversion Heq; discriminate. }
  destruct (C5_nested_object_merged [] post inner "x" "y") as [Hnames Hvalues].
  split; [exact Hkeep|]. split; [exact Hnames|]. split.
  - exact (Hvalues Hkeep).
  - reflexivity.
Defined.

(** C5 as stated fails: a later scalar entry of the outer bag with the
    name of an inner pair replaces that pair, and a later [undefined]
    entry with that name deletes it. *)
Lemma C5_counterexample :
  let inner := JObject [("y", JNumber 1)] in
  let bag := JObject [("x", inner); ("y", JNumber 2)] in
  let bag' := JObject [("x", inner); ("y", JUndefined)] in
  In ("y", JNumber 1) (pairs (transformParameters inner)) /\
  pairs (transformParameters bag) = [("y", JNumber 2)] /\
  ~ In ("y", JNumber 1) (pairs (transformParameters bag)) /\
  pairs (transformParameters bag') = [].
Proof.
  split; [now left|]. split; [reflexivity|]. split; [|reflexivity].
  simpl; intros [H|[]]; discriminate H.
Qed.

End FlattenProperties.

(* ================================================================== *)
(** * Requests and responses: the properties *)
(* ================================================================== *)

Module ServiceProperties.

Import Rx.
Import BaseService.

(** Every operation is the same chain around one request. *)
Lemma perform_chain (rx : Patches) (this : t) (c : Call) :
  perform rx this c =
  catch (map (Http.request (_http this) (request_of this c)) extractData)
        (errorHandler rx).
Proof. destruct c; reflexivity. Qed.

(** Subscribing sends exactly the request of the call, once. *)
Lemma perform_sends (rx : Patches) (this : t) (c : Call)
      (sent : list Request) :
  snd (perform rx this c sent) = sent ++ [request_of this c].
Proof.
  rewrite perform_chain.
  unfold catch, map, Http.request, extractData, errorHandler,
    Observable_throw.
  destruct (Http.ok _), (json _), (observable_throw rx); reflexivity.
Qed.

(** What the subscriber is told, by the status and the body of the
    response and by the presence of [Observable.throw]. *)
Lemma perform_notifies (rx : Patches) (this : t) (c : Call)
      (sent : list Request) :
  let res := Http.server (_http this) sent (request_of this c) in
  fst (perform rx this c sent) =
  if Http.ok res then
    match json res with
    | Parsed v => Next (if truthy v then v else empty_object)
    | ParseError => Error ThrownTypeError
    end
  else
    match json res with
    | Parsed body =>
        if observable_throw rx then Error (ThrownValue body)
        else Error ThrownTypeError
    | ParseError => Error ThrownSyntaxError
    end.
Proof.
  intros res; rewrite perform_chain.
  unfold catch, map, Http.request, extractData, errorHandler,
    Observable_throw.
  fold res.
  destruct (Http.ok res), (json res), (observable_throw rx); reflexivity.
Qed.

Lemma encodes_truthy (v : JsValue) (e : Envelope.JSendReply) :
  Envelope.encodes v e -> truthy v = true.
Proof. intros [[ps ->] _]; reflexivity. Qed.

(** Where [Observable.throw] has been loaded by some module, a failed
    response whose body decodes makes the operation fail with the decoded
    body. *)
Lemma failed_response_rethrown_when_installed (rx : Patches) (this : t)
      (c : Call) (sent : list Request) (body : JsValue) :
  let res := Http.server (_http this) sent (request_of this c) in
  observable_throw rx = true ->
  Http.ok res = false ->
  json res = Parsed body ->
  fst (perform rx this c sent) = Error (ThrownValue body).
Proof.
  intros res Hrx Hok Hjson.
  rewrite perform_notifies; fold res; now rewrite Hok, Hjson, Hrx.
Qed.

(** C1, at the input where it fails: a service built with the prefix
    ["auth"] sends the request of [get("todos")] to ["/todos"]; the
    constructor stores the empty string and drops its [prefix]
    argument. *)
Theorem C1_constructor_drops_prefix (rx : Patches) (http : Http.t)
        (queryParams : JsValue) :
  url (constructor http "auth") = "" /\
  snd (subscribe (get rx (constructor http "auth") (Some "todos") queryParams))
  = [{| method := GET; requestUrl := "/todos";
        search := Some (transformParameters queryParams); body := None |}] /\
  "/todos" <> "auth/todos".
Proof.
  split; [reflexivity|]. split; [|discriminate].
  unfold subscribe.
  exact (perform_sends rx (constructor http "auth")
           (CallGet (Some "todos") queryParams) []).
Qed.

(** C2, as the code has it: [extractData] returns what [res.json()] returns
    when that value is truthy and an empty object when it is falsy, which
    it is for [undefined], [null], [false], [0] and the empty string only;
    when [res.json()] throws, [extractData] throws the same error. *)
Theorem C2_extractData_outcomes (code : Z) :
  extractData {| status := code; json := ParseError |} =
    Throw ThrownSyntaxError /\
  (forall v,
      extractData {| status := code; json := Parsed v |} =
      Return (if truthy v then v else empty_object)) /\
  (forall v,
      truthy v = false <->
      v = JUndefined \/ v = JNull \/ v = JBoolean false \/
      v = JNumber 0 \/ v = JString "").
Proof.
  split; [reflexivity|]. split; [reflexivity|].
  intros v; split.
  - destruct v as [| |b|n|s|d|l|ps]; simpl; intros H; try discriminate; auto.
    + destruct b; [discriminate|auto].
    + apply negb_false_iff, Z.eqb_eq in H; subst; auto 6.
    + apply negb_false_iff, String.eqb_eq in H; subst; auto 6.
  - intros [ -> | [ -> | [ -> | [ -> | -> ] ] ] ]; reflexivity.
Qed.

(** C2 as stated fails twice: a body that does not parse makes
    [extractData] throw, and a body that parses to a falsy value, here
    the number [0], is replaced by an empty object. *)
Lemma C2_counterexample :
  extractData {| status := 200; json := ParseError |} =
    Throw ThrownSyntaxError /\
  extractData {| status := 200; json := Parsed (JNumber 0) |} =
    Return empty_object /\
  empty_object <> JNumber 0.
Proof. repeat split; discriminate. Qed.

(** C3, as the file runs on its own imports: when the response to the
    request of an operation is a failure (its status is not 2xx) whose
    body decodes to an envelope, [errorHandler] decodes the body and
    calls [Observable.throw], which the file never loads; the call is a
    [TypeError], and the operation fails with that [TypeError], not with
    the envelope. *)
Theorem C3_failed_response_type_error (this : t) (c : Call)
        (sent : list Request) (body : JsValue) (e : Envelope.JSendReply) :
  let res := Http.server (_http this) sent (request_of this c) in
  Http.ok res = false ->
  json res = Parsed body ->
  Envelope.encodes body e ->
  fst (perform imports this c sent) = Error ThrownTypeError /\
  fst (perform imports this c sent) <> Error (ThrownValue body).
Proof.
  intros res Hok Hjson _.
  assert (H : fst (perform imports this c sent) = Error ThrownTypeError).
  { rewrite perform_notifies; fold res; now rewrite Hok, Hjson. }
  split; [exact H | rewrite H; discriminate].
Qed.

Lemma C3_failed_response_witness :
  let e := {| Envelope.data := JNull; Envelope.message := "not found";
              Envelope.status := "error"; Envelope.statusCode := 404 |} in
  let http := {| Http.server := fun _ _ =>
                   {| status := 404; json := Parsed (Envelope.to_json e) |} |} in
  let this := constructor http "todos" in
  Envelope.encodes (Envelope.to_json e) e /\
  fst (subscribe (get imports this (Some "7") JUndefined)) =
    Error ThrownTypeError /\
  fst (subscribe (get imports this (Some "7") JUndefined)) <>
    Error (ThrownValue (Envelope.to_json e)).
Proof.
  intros e http this.
  assert (Henc : Envelope.encodes (Envelope.to_json e) e).
  { unfold Envelope.encodes; repeat split. now exists (
      [("data", JNull); ("message", JString "not found");
       ("status", JString "error"); ("statusCode", JNumber 404)]). }
  split; [exact Henc|].
  exact (C3_failed_response_type_error this (CallGet (Some "7") JUndefined) []
           (Envelope.to_json e) e eq_refl eq_refl Henc).
Defined.

(** C4: when the response to the request of an operation is a success
    (its status is 2xx) whose body decodes to an envelope, the result of
    the operation emits that decoded body, with [status] and [statusCode]
    and the other fields as the server wrote them. *)
Theorem C4_successful_response_unwrapped (rx : Patches) (this : t) (c : Call)
        (sent : list Request) (body : JsValue) (e : Envelope.JSendReply) :
  let res := Http.server (_http this) sent (request_of this c) in
  Http.ok res = true ->
  json res = Parsed body ->
  Envelope.encodes body e ->
  exists payload,
    fst (perform rx this c sent) = Next payload /\
    payload = body /\
    Envelope.encodes payload e.
Proof.
  intros res Hok Hjson Henc.
  exists body; split; [|split; [reflexivity | assumption]].
  rewrite perform_notifies; fold res.
  now rewrite Hok, Hjson, (encodes_truthy body e Henc).
Qed.

Lemma C4_successful_response_witness :
  let e := {| Envelope.data := JObject [("id", JNumber 1)];
              Envelope.message := "ok";
              Envelope.status := "success"; Envelope.statusCode := 200 |} in
  let http := {| Http.server := fun _ _ =>
                   {| status := 200; json := Parsed (Envelope.to_json e) |} |} in
  exists payload,
    fst (subscribe (post imports (constructor http "todos") None
                         (JString "milk"))) =
      Next payload /\
    payload = Envelope.to_json e /\
    Envelope.encodes payload e.
Proof.
  intros e http.
  apply (C4_successful_response_unwrapped imports (constructor http "todos")
           (CallPost None (JString "milk")) [] (Envelope.to_json e) e).
  - reflexivity.
  - reflexivity.
  - unfold Envelope.encodes; repeat split. now exists (
      [("data", JObject [("id", JNumber 1)]); ("message", JString "ok");
       ("status", JString "success"); ("statusCode", JNumber 200)]).
Defined.

(** C9: [getExternal(u, p)] sends one GET request whose URL is [u] as
    given and whose search parameters are the flattening of [p]; the
    [url] field of the service plays no part; and the response goes
    through the chain of [get]: on the URL that [get] composes the two
    operations are the same observable. *)
Theorem C9_getExternal_url_verbatim (rx : Patches) (http : Http.t)
        (url0 : string) (u : string) (p : JsValue) (sent : list Request) :
  let this := {| _http := http; url := url0 |} in
  snd (getExternal rx this u p sent) =
    sent ++ [{| method := GET; requestUrl := u;
                search := Some (transformParameters p); body := None |}] /\
  (forall url1, getExternal rx {| _http := http; url := url1 |} u p =
                getExternal rx this u p) /\
  (forall e, get rx this (Some e) p =
             getExternal rx this (url0 ++ "/" ++ e)%string p) /\
  getExternal rx this u p =
    catch (map (Http.get http u (transformParameters p)) extractData)
          (errorHandler rx).
Proof.
  intros this. split; [|split; [|split]].
  - exact (perform_sends rx this (CallGetExternal u p) sent).
  - reflexivity.
  - reflexivity.
  - reflexivity.
Qed.

End ServiceProperties.

(* ================================================================== *)
(** * Further properties of the operations *)
(* ================================================================== *)

Module ServiceExtras.

Import Rx.
Import BaseService.
Import ServiceProperties.

(** X1: subscribing to the result of any of the five operations sends
    exactly one request, whatever the response is and whatever the chain
    does with it: the requests sent before are kept and the request of
    the call is added after them. *)
Theorem X1_one_request_per_subscription (rx : Patches) (this : t) (c : Call)
        (sent : list Request) :
  snd (perform rx this c sent) = sent ++ [request_of this c] /\
  List.length (snd (perform rx this c sent)) = S (List.length sent).
Proof.
  rewrite perform_sends; split; [reflexivity|].
  rewrite length_app; simpl; lia.
Qed.


(** X3: an omitted endpoint is the empty string, so the request goes to
    [this.url] followed by ["/"]; data that is omitted or [undefined] is
    sent as [null]. *)
Theorem X3_default_arguments (rx : Patches) (this : t)
        (queryParams : JsValue) (sent : list Request) :
  snd (get rx this None queryParams sent) =
    sent ++ [{| method := GET; requestUrl := (url this ++ "/")%string;
                search := Some (transformParameters queryParams);
                body := None |}] /\
  snd (delete rx this None queryParams sent) =
    sent ++ [{| method := DELETE; requestUrl := (url this ++ "/")%string;
                search := Some (transformParameters queryParams);
                body := None |}] /\
  snd (post rx this None JUndefined sent) =
    sent ++ [{| method := POST; requestUrl := (url this ++ "/")%string;
                search := None; body := Some JNull |}] /\
  snd (put rx this None JUndefined sent) =
    sent ++ [{| method := PUT; requestUrl := (url this ++ "/")%string;
                search := None; body := Some JNull |}].
Proof.
  repeat split.
  - exact (perform_sends rx this (CallGet None queryParams) sent).
  - exact (perform_sends rx this (CallDelete None queryParams) sent).
  - exact (perform_sends rx this (CallPost None JUndefined) sent).
  - exact (perform_sends rx this (CallPut None JUndefined) sent).
Qed.

(** X4: an operation succeeds exactly when the response has a 2xx status
    and its body can be decoded. *)
Theorem X4_success_iff_ok_and_decodable (rx : Patches) (this : t) (c : Call)
        (sent : list Request) :
  let res := Http.server (_http this) sent (request_of this c) in
  (exists v, fst (perform rx this c sent) = Next v) <->
  (Http.ok res = true /\ exists v, json res = Parsed v).
Proof.
  intros res; rewrite perform_notifies; fold res.
  destruct (Http.ok res), (json res) as [v|], (observable_throw rx); split;
    try (intros [w H]; discriminate H);
    try (intros [H _]; discriminate H);
    try (intros [_ [w H]]; discriminate H).
  - intros _; split; [reflexivity | now exists v].
  - intros _; eexists; reflexivity.
  - intros _; split; [reflexivity | now exists v].
  - intros _; eexists; reflexivity.
Qed.

(** X5: what an operation emits is never falsy: not [undefined], [null],
    [false], [0] or the empty string. *)
Theorem X5_emitted_value_truthy (rx : Patches) (this : t) (c : Call)
        (sent : list Request) (v : JsValue) :
  fst (perform rx this c sent) = Next v -> truthy v = true.
Proof.
  rewrite perform_notifies.
  destruct (Http.ok _), (json _) as [w|], (observable_throw rx);
    try discriminate;
    intros H; injection H as <-;
    destruct (truthy w) eqn:E; first [exact E | reflexivity].
Qed.

Lemma X5_emitted_value_witness :
  let http := {| Http.server := fun _ _ =>
                   {| status := 204; json := Parsed JNull |} |} in
  let this := constructor http "todos" in
  fst (perform imports this (CallDelete (Some "7") JUndefined) []) =
    Next empty_object /\
  truthy empty_object = true.
Proof.
  intros http this.
  assert (H : fst (perform imports this (CallDelete (Some "7") JUndefined) [])
              = Next empty_object) by reflexivity.
  split; [exact H|].
  exact (X5_emitted_value_truthy imports this
           (CallDelete (Some "7") JUndefined) [] empty_object H).
Defined.

(** X6: the error of a failed operation is never the response object
    itself: it is the decoded body or an exception. *)
Theorem X6_error_never_raw_response (rx : Patches) (this : t) (c : Call)
        (sent : list Request) (r : Response) :
  fst (perform rx this c sent) <> Error (ThrownResponse r).
Proof.
  rewrite perform_notifies.
  destruct (Http.ok _), (json _), (observable_throw rx); discriminate.
Qed.

(** X7: a 2xx response whose body cannot be decoded makes the operation
    fail with a [TypeError]: the [SyntaxError] of [extractData] reaches
    [errorHandler], which calls [json()] on it. *)
Theorem X7_undecodable_success_is_type_error (rx : Patches) (this : t)
        (c : Call) (sent : list Request) :
  let res := Http.server (_http this) sent (request_of this c) in
  Http.ok res = true ->
  json res = ParseError ->
  fst (perform rx this c sent) = Error ThrownTypeError.
Proof.
  intros res Hok Hjson.
  rewrite perform_notifies; fold res; now rewrite Hok, Hjson.
Qed.

Lemma X7_undecodable_success_witness :
  let http := {| Http.server := fun _ _ =>
                   {| status := 200; json := ParseError |} |} in
  fst (subscribe (get imports (constructor http "todos") None JUndefined)) =
  Error ThrownTypeError.
Proof.
  intros http.
  apply (X7_undecodable_success_is_type_error imports
           (constructor http "todos") (CallGet None JUndefined) []);
    reflexivity.
Defined.

(** X8: a non-2xx response whose body cannot be decoded makes the
    operation fail with the [SyntaxError] of [json()], which
    [errorHandler] does not catch. *)
Theorem X8_undecodable_failure_is_syntax_error (rx : Patches) (this : t)
        (c : Call) (sent : list Request) :
  let res := Http.server (_http this) sent (request_of this c) in
  Http.ok res = false ->
  json res = ParseError ->
  fst (perform rx this c sent) = Error ThrownSyntaxError.
Proof.
  intros res Hok Hjson.
  rewrite perform_notifies; fold res; now rewrite Hok, Hjson.
Qed.

Lemma X8_undecodable_failure_witness :
  let http := {| Http.server := fun _ _ =>
                   {| status := 502; json := ParseError |} |} in
  fst (subscribe (put imports (constructor http "todos") (Some "7")
                      (JString "milk")))
  = Error ThrownSyntaxError.
Proof.
  intros http.
  apply (X8_undecodable_failure_is_syntax_error imports
           (constructor http "todos") (CallPut (Some "7") (JString "milk")) []);
    reflexivity.
Defined.

(** X9: a 2xx response whose decoded body is falsy, such as [null],
    makes the operation succeed with an empty object. *)
Theorem X9_falsy_success_is_empty_object (rx : Patches) (this : t) (c : Call)
        (sent : list Request) (v : JsValue) :
  let res := Http.server (_http this) sent (request_of this c) in
  Http.ok res = true ->
  json res = Parsed v ->
  truthy v = false ->
  fst (perform rx this c sent) = Next empty_object.
Proof.
  intros res Hok Hjson Hv.
  rewrite perform_notifies; fold res; now rewrite Hok, Hjson, Hv.
Qed.

Lemma X9_falsy_success_witness :
  let http := {| Http.server := fun _ _ =>
                   {| status := 200; json := Parsed JNull |} |} in
  fst (subscribe (getExternal imports (constructor http "todos") "http://x/y"
                              JUndefined))
  = Next empty_object.
Proof.
  intros http.
  apply (X9_falsy_success_is_empty_object imports (constructor http "todos")
           (CallGetExternal "http://x/y" JUndefined) [] JNull); reflexivity.
Defined.

(** X10: [errorHandler] never recovers.  It returns an observable only
    where [Observable.throw] has been loaded and what it caught is a
    response whose body decodes; that observable fails with exactly the
    decoded body and subscribing to it sends no request.  In every other
    case [errorHandler] throws. *)
Theorem X10_errorHandler_never_recovers (rx : Patches) (err : Thrown)
        (o : Observable JsValue) :
  errorHandler rx err = Return o ->
  observable_throw rx = true /\
  exists r body,
    err = ThrownResponse r /\
    json r = Parsed body /\
    forall sent, o sent = (Error (ThrownValue body), sent).
Proof.
  destruct err as [r| | |v]; simpl; try discriminate.
  destruct (json r) as [body|] eqn:Hjson; [|discriminate].
  unfold Observable_throw.
  destruct (observable_throw rx); [|discriminate].
  intros H; injection H as <-.
  split; [reflexivity|].
  exists r, body; repeat split; assumption.
Qed.

Lemma X10_errorHandler_witness :
  let rx := {| observable_throw := true |} in
  let r := {| status := 404; json := Parsed (JString "gone") |} in
  errorHandler rx (ThrownResponse r) =
    Return (throw (ThrownValue (JString "gone"))) /\
  exists r' body,
    ThrownResponse r = ThrownResponse r' /\
    json r' = Parsed body /\
    forall sent,
      throw (A := JsValue) (ThrownValue (JString "gone")) sent =
      (Error (ThrownValue body), sent).
Proof.
  intros rx r.
  assert (H : errorHandler rx (ThrownResponse r) =
              Return (throw (ThrownValue (JString "gone")))) by reflexivity.
  split; [exact H|].
  exact (proj2 (X10_errorHandler_never_recovers rx (ThrownResponse r) _ H)).
Defined.

End ServiceExtras.

(* ================================================================== *)
(** * Further properties of the flattening *)
(* ================================================================== *)

Module FlattenExtras.

Import URLSearchParams Flatten ParamsFacts FlattenFacts.

(** ** More on the map operations *)

Lemma map_get_delete_same (m : t) (param : string) :
  NoDup (keys m) -> map_get (map_delete m param) param = None.
Proof.
  induction m as [|[k vs] m IH]; simpl; intros H; [reflexivity|].
  inversion H as [|? ? Hk Hm]; subst.
  eqb_cases k param.
  - now apply map_get_none.
  - simpl. apply String.eqb_neq in E; rewrite E; now apply IH.
Qed.

Lemma pairs_app (a b : t) : pairs (a ++ b) = pairs a ++ pairs b.
Proof. unfold pairs; apply flat_map_app. Qed.

Lemma keys_app (a b : t) : keys (a ++ b) = keys a ++ keys b.
Proof. unfold keys; apply map_app. Qed.

Lemma map_set_last (sp : t) (param : string) (vs l : list JsValue) :
  ~ In param (keys sp) ->
  map_set (sp ++ [(param, vs)]) param l = sp ++ [(param, l)].
Proof.
  induction sp as [|[k ws] sp IH]; simpl; intros H.
  - now rewrite String.eqb_refl.
  - eqb_cases k param.
    + exfalso; apply H; now left.
    + f_equal; apply IH; intros Hin; apply H; now right.
Qed.

Lemma getAll_last (sp : t) (param : string) (vs : list JsValue) :
  ~ In param (keys sp) -> getAll (sp ++ [(param, vs)]) param = vs.
Proof.
  induction sp as [|[k ws] sp IH]; intros H.
  - unfold getAll; simpl; now rewrite String.eqb_refl.
  - rewrite <- app_comm_cons, getAll_cons.
    eqb_cases k param.
    + exfalso; apply H; now left.
    + apply IH; intros Hin; apply H; now right.
Qed.

(** The rounds of an array whose name is new to the map. *)
Lemma append_all_last (property : string) (l vs : list JsValue) (sp : t) :
  ~ In property (keys sp) ->
  fold_left (fun sp value => append sp property value) l
            (sp ++ [(property, vs)])
  = sp ++ [(property, vs ++ filter present l)].
Proof.
  intros Hk; revert vs; induction l as [|v l IH]; intros vs; simpl.
  - now rewrite app_nil_r.
  - unfold append at 2, present; destruct (nullish v); simpl.
    + apply IH.
    + rewrite getAll_last, map_set_last, IH by assumption.
      now rewrite <- app_assoc.
Qed.

Lemma append_all_fresh (property : string) (l : list JsValue) (sp : t) :
  ~ In property (keys sp) ->
  pairs (fold_left (fun sp value => append sp property value) l sp)
  = pairs sp ++ List.map (pair property) (filter present l).
Proof.
  intros Hk; induction l as [|v l IH]; simpl.
  - now rewrite app_nil_r.
  - unfold append at 2, present; destruct (nullish v) eqn:E; simpl.
    + exact IH.
    + rewrite (getAll_fresh sp property), map_set_fresh by assumption.
      simpl; rewrite append_all_last, pairs_app by assumption.
      unfold pairs at 2; simpl; now rewrite app_nil_r.
Qed.

Lemma append_all_nullish (property : string) (l : list JsValue) (sp : t) :
  forallb nullish l = true ->
  fold_left (fun sp value => append sp property value) l sp = sp.
Proof.
  revert sp; induction l as [|v l IH]; intros sp H; simpl; [reflexivity|].
  simpl in H; apply andb_true_iff in H; destruct H as [Hv Hl].
  unfold append at 2; rewrite Hv; now apply IH.
Qed.

(** Merging a map whose names are all new puts it after the other. *)
Lemma appendAll_disjoint (other sp : t) :
  NoDup (keys other) ->
  (forall k, In k (keys other) -> ~ In k (keys sp)) ->
  appendAll sp other = sp ++ other.
Proof.
  revert sp; induction other as [|[k vs] other IH]; intros sp Hnd Hdis.
  - simpl; now rewrite app_nil_r.
  - simpl in Hnd; inversion Hnd as [|? ? Hk Hnd']; subst.
    change (appendAll sp ((k, vs) :: other))
      with (appendAll (map_set sp k (getAll sp k ++ vs)) other).
    assert (Hfresh : ~ In k (keys sp)) by (apply Hdis; now left).
    rewrite getAll_fresh, map_set_fresh by assumption; simpl.
    rewrite IH; [now rewrite <- app_assoc | assumption |].
    intros n Hn Hin; rewrite keys_app in Hin.
    apply in_app_iff in Hin; destruct Hin as [Hin|[<-|[]]].
    + apply (Hdis n); [now right | assumption].
    + contradiction.
Qed.

Lemma leaves_object (ps : list (string * JsValue)) :
  leaves (JObject ps) =
  flat_map (fun e => match snd e with
                     | JNull => []
                     | JObject _ => leaves (snd e)
                     | _ => [e]
                     end) ps.
Proof.
  simpl; induction ps as [|[k x] ps IH]; simpl; [reflexivity|].
  rewrite IH; now destruct x.
Qed.

Lemma keys_loop_from_incl (ps : list (string * JsValue)) (sp : t) :
  incl (keys (loop_from sp ps)) (keys sp ++ leaf_names (JObject ps)).
Proof.
  rewrite leaf_names_object.
  revert sp; induction ps as [|[k x] ps IH]; intros sp.
  - simpl; rewrite app_nil_r; apply incl_refl.
  - rewrite loop_from_cons.
    intros n Hn; apply IH in Hn.
    apply in_app_iff in Hn; simpl flat_map; simpl fst; simpl snd.
    rewrite !in_app_iff.
    destruct Hn as [Hn|Hn]; [|auto].
    destruct x; simpl loop_body in Hn;
      try (apply keys_set_incl in Hn; simpl in *; tauto).
    + simpl in Hn; auto.
    + apply keys_append_all_incl in Hn; simpl in *; tauto.
    + apply keys_appendAll_incl, in_app_iff in Hn.
      destruct Hn as [Hn|Hn]; [auto|].
      right; left; now apply (keys_leaf_names (JObject properties) properties).
Qed.

Lemma leaf_names_cons (e : string * JsValue) (ps : list (string * JsValue)) :
  leaf_names (JObject (e :: ps)) =
  leaf_names (JObject [e]) ++ leaf_names (JObject ps).
Proof.
  rewrite !leaf_names_object; simpl; now rewrite app_nil_r.
Qed.

Lemma leaves_cons (e : string * JsValue) (ps : list (string * JsValue)) :
  leaves (JObject (e :: ps)) = leaves (JObject [e]) ++ leaves (JObject ps).
Proof.
  rewrite !leaves_object; simpl; now rewrite app_nil_r.
Qed.

Lemma NoDup_app_disjoint {A} (l l' : list A) :
  NoDup (l ++ l') -> forall a, In a l -> ~ In a l'.
Proof.
  induction l as [|b l IH]; simpl; intros H a Ha; [contradiction|].
  inversion H as [|? ? Hb Hl]; subst.
  destruct Ha as [<-|Ha].
  - intros Hin; apply Hb, in_app_iff; now right.
  - now apply IH.
Qed.

(** One round, when the names it can touch are new to the map. *)
Lemma loop_body_distinct (k : string) (x : JsValue) (sp : t) :
  (forall inner, x = JObject inner ->
                 pairs (transformParameters x) =
                 flat_map leaf_pairs (leaves x)) ->
  (forall n, In n (leaf_names (JObject [(k, x)])) -> ~ In n (keys sp)) ->
  pairs (loop_body k x (transformParameters x) sp) =
  pairs sp ++ flat_map leaf_pairs (leaves (JObject [(k, x)])).
Proof.
  intros Hinner Hfresh.
  assert (Hk : (forall inner, x <> JObject inner) -> x <> JNull ->
               ~ In k (keys sp)).
  { intros Hobj Hnull; apply Hfresh.
    destruct x; simpl; auto;
      try (now destruct Hnull); now destruct (Hobj properties). }
  destruct x.
  - (* undefined *)
    simpl; unfold set; simpl.
    rewrite map_delete_fresh, app_nil_r; [reflexivity|].
    apply Hk; intros; discriminate.
  - (* null *)
    simpl; now rewrite app_nil_r.
  - (* boolean *)
    simpl; unfold set; simpl.
    rewrite map_set_fresh, pairs_app; [reflexivity|].
    apply Hk; intros; discriminate.
  - (* number *)
    simpl; unfold set; simpl.
    rewrite map_set_fresh, pairs_app; [reflexivity|].
    apply Hk; intros; discriminate.
  - (* string *)
    simpl; unfold set; simpl.
    rewrite map_set_fresh, pairs_app; [reflexivity|].
    apply Hk; intros; discriminate.
  - (* date *)
    simpl; unfold set; simpl.
    rewrite map_set_fresh, pairs_app; [reflexivity|].
    apply Hk; intros; discriminate.
  - (* array *)
    change (loop_body k (JArray elements) (transformParameters (JArray elements))
              sp)
      with (fold_left (fun sp value => append sp k value) elements sp).
    rewrite append_all_fresh by (apply Hk; intros; discriminate).
    simpl; now rewrite !app_nil_r.
  - (* object *)
    change (loop_body k (JObject properties)
              (transformParameters (JObject properties)) sp)
      with (appendAll sp (transformParameters (JObject properties))).
    rewrite appendAll_disjoint.
    + rewrite pairs_app, (Hinner properties eq_refl).
      rewrite (leaves_cons (k, JObject properties) []).
      change (leaves (JObject [])) with (@nil (string * JsValue)).
      rewrite app_nil_r.
      replace (leaves (JObject [(k, JObject properties)]))
        with (leaves (JObject properties)); [reflexivity|].
      rewrite (leaves_object [_]); simpl; now rewrite app_nil_r.
    + apply NoDup_transformParameters_object.
    + intros n Hn; apply Hfresh.
      rewrite (leaf_names_object [_]); simpl; rewrite app_nil_r.
      now apply (keys_leaf_names (JObject properties) properties).
Qed.

(** The names of the leaves, read off the leaves. *)
Lemma leaf_names_leaves (v : JsValue) :
  leaf_names v = List.map fst (leaves v).
Proof.
  induction v as [v Hv | qs IH] using JsValue_object_ind.
  - destruct v; try reflexivity. now destruct (Hv properties).
  - rewrite leaf_names_object, leaves_object.
    induction qs as [|[k x] qs IHqs]; [reflexivity|].
    inversion IH as [|? ? Hx Hqs]; subst; simpl in Hx.
    simpl flat_map; rewrite map_app, (IHqs Hqs); f_equal.
    destruct x; simpl; try reflexivity. exact Hx.
Qed.

(** The loop on a bag whose leaf names are pairwise distinct and new to
    the map: every leaf adds its own pairs at the end. *)
Lemma pairs_loop_from_distinct (v : JsValue) :
  forall ps, v = JObject ps ->
  forall sp,
    (forall n, In n (leaf_names v) -> ~ In n (keys sp)) ->
    NoDup (leaf_names v) ->
    pairs (loop_from sp ps) = pairs sp ++ flat_map leaf_pairs (leaves v).
Proof.
  induction v as [v Hv | qs IH] using JsValue_object_ind; intros ps E.
  - now destruct (Hv ps).
  - injection E as <-.
    induction qs as [|[k x] qs IHqs]; intros sp Hfresh Hnd.
    + simpl; now rewrite app_nil_r.
    + inversion IH as [|? ? Hx Hqs]; subst; simpl in Hx.
      rewrite leaf_names_cons in Hfresh, Hnd.
      rewrite leaves_cons, flat_map_app, app_assoc, loop_from_cons.
      rewrite <- (loop_body_distinct k x sp).
      * apply (IHqs Hqs).
        -- intros n Hn Hin.
           apply (keys_loop_from_incl [(k, x)] sp) in Hin.
           apply in_app_iff in Hin; destruct Hin as [Hin|Hin].
           ++ apply (Hfresh n); [apply in_app_iff; now right | assumption].
           ++ now apply (NoDup_app_disjoint _ _ Hnd n Hin).
        -- now apply NoDup_app_remove_l in Hnd.
      * intros inner ->.
        rewrite transformParameters_object.
        apply (Hx inner eq_refl []).
        -- intros n _ [].
        -- apply NoDup_app_remove_r in Hnd.
           rewrite (leaf_names_object [_]) in Hnd; simpl in Hnd.
           now rewrite app_nil_r in Hnd.
      * intros n Hn; apply Hfresh, in_app_iff; now left.
Qed.

(** ** What the map never holds *)

Local Notation "'all_values' P" := (Forall (fun e => Forall P (snd e)))
  (at level 10, P at level 9).

Lemma all_values_map_set (P : JsValue -> Prop) (m : t) (param : string)
      (l : list JsValue) :
  all_values P m -> Forall P l -> all_values P (map_set m param l).
Proof.
  intros Hm Hl; induction m as [|[k vs] m IH]; simpl.
  - constructor; [exact Hl | constructor].
  - inversion Hm as [|? ? Hvs Hm']; subst.
    destruct (String.eqb k param); constructor; auto.
Qed.

Lemma all_values_map_delete (P : JsValue -> Prop) (m : t) (param : string) :
  all_values P m -> all_values P (map_delete m param).
Proof.
  intros Hm; induction m as [|[k vs] m IH]; simpl; [constructor|].
  inversion Hm as [|? ? Hvs Hm']; subst.
  destruct (String.eqb k param); [assumption | constructor; auto].
Qed.

Lemma all_values_getAll (P : JsValue -> Prop) (m : t) (param : string) :
  all_values P m -> Forall P (getAll m param).
Proof.
  intros Hm; induction m as [|[k vs] m IH]; [constructor|].
  inversion Hm as [|? ? Hvs Hm']; subst.
  rewrite getAll_cons; destruct (String.eqb k param); auto.
Qed.

Lemma all_values_appendAll (P : JsValue -> Prop) (other sp : t) :
  all_values P sp -> all_values P other -> all_values P (appendAll sp other).
Proof.
  revert sp; induction other as [|[k vs] other IH]; intros sp Hsp Ho;
    [assumption|].
  inversion Ho as [|? ? Hvs Ho']; subst.
  change (appendAll sp ((k, vs) :: other))
    with (appendAll (map_set sp k (getAll sp k ++ vs)) other).
  apply IH; [|assumption].
  apply all_values_map_set; [assumption|].
  apply Forall_app; split; [now apply all_values_getAll | assumption].
Qed.

Lemma all_values_pairs (P : JsValue -> Prop) (sp : t) (k : string)
      (v : JsValue) :
  all_values P sp -> In (k, v) (pairs sp) -> P v.
Proof.
  unfold pairs; intros Hsp Hin.
  apply in_flat_map in Hin; destruct Hin as [[k' vs] [He Hin]].
  apply in_map_iff in Hin; destruct Hin as [w [Hw Hin]].
  injection Hw as -> ->.
  rewrite Forall_forall in Hsp; specialize (Hsp _ He); simpl in Hsp.
  rewrite Forall_forall in Hsp; now apply Hsp.
Qed.

Lemma present_loop_from (v : JsValue) :
  forall ps, v = JObject ps ->
  forall sp,
    all_values (fun w => nullish w = false) sp ->
    all_values (fun w => nullish w = false) (loop_from sp ps).
Proof.
  induction v as [v Hv | qs IH] using JsValue_object_ind; intros ps E.
  - now destruct (Hv ps).
  - injection E as <-.
    induction qs as [|[k x] qs IHqs]; intros sp Hsp; [assumption|].
    inversion IH as [|? ? Hx Hqs]; subst; simpl in Hx.
    rewrite loop_from_cons; apply (IHqs Hqs).
    assert (Hset : forall w, nullish w = false ->
                   all_values (fun w => nullish w = false) (set sp k w)).
    { intros w Hw; unfold set; rewrite Hw.
      apply all_values_map_set; [assumption|].
      constructor; [exact Hw | constructor]. }
    destruct x.
    + (* undefined *)
      simpl; unfold set; simpl; now apply all_values_map_delete.
    + (* null *)
      simpl; assumption.
    + now apply Hset.
    + now apply Hset.
    + now apply Hset.
    + now apply Hset.
    + (* array *)
      change (loop_body k (JArray elements)
                (transformParameters (JArray elements)) sp)
        with (fold_left (fun sp value => append sp k value) elements sp).
      clear - Hsp; revert sp Hsp.
      induction elements as [|w l IHl]; intros sp Hsp; simpl; [assumption|].
      apply IHl; unfold append; destruct (nullish w) eqn:E; [assumption|].
      apply all_values_map_set; [assumption|].
      apply Forall_app; split; [now apply all_values_getAll|].
      constructor; [exact E | constructor].
    + (* object *)
      change (loop_body k (JObject properties)
                (transformParameters (JObject properties)) sp)
        with (appendAll sp (transformParameters (JObject properties))).
      apply all_values_appendAll; [assumption|].
      rewrite transformParameters_object.
      apply (Hx properties eq_refl); constructor.
Qed.

(** ** The properties *)

(** X11: call leaf a property, at any depth of a bag, whose value is
    neither a nested object nor [null]: a date, an array, a string, a
    number, a boolean or [undefined].  When no two leaves share a name,
    the encoding lists, in the order the loop meets the leaves, one pair
    per date (its date string), one pair per array element that is
    neither [undefined] nor [null], one pair per string, number or
    boolean, and nothing for a leaf that is [undefined]. *)
Theorem X11_distinct_leaves_encoding (ps : list (string * JsValue)) :
  NoDup (leaf_names (JObject ps)) ->
  pairs (transformParameters (JObject ps)) =
  flat_map leaf_pairs (leaves (JObject ps)).
Proof.
  intros Hnd; rewrite transformParameters_object.
  apply (pairs_loop_from_distinct (JObject ps) ps eq_refl empty);
    [intros n _ [] | assumption].
Qed.

Lemma X11_distinct_leaves_witness :
  let ps := [("page", JNumber 2);
             ("filter", JObject [("due", JDate (ValidDate 0));
                                 ("tag", JArray [JString "a"; JNull;
                                                 JString "b"]);
                                 ("owner", JUndefined)]);
             ("done", JBoolean false)] in
  NoDup (leaf_names (JObject ps)) /\
  pairs (transformParameters (JObject ps)) =
  [("page", JNumber 2); ("due", JString "Thu Jan 01 1970");
   ("tag", JString "a"); ("tag", JString "b"); ("done", JBoolean false)].
Proof.
  intros ps.
  assert (Hnd : NoDup (leaf_names (JObject ps))).
  { repeat constructor; simpl; intuition discriminate. }
  split; [exact Hnd|].
  exact (X11_distinct_leaves_encoding ps Hnd).
Defined.

(** X12: when no two leaves of a bag share a name (leaves as in X11,
    [undefined] ones included), the encoding depends on the leaves
    alone: any other bag with the same leaves in the same order encodes
    to the same pairs, however the two bags group their leaves into
    nested objects. *)
Theorem X12_encoding_depends_on_leaves (ps qs : list (string * JsValue)) :
  NoDup (leaf_names (JObject ps)) ->
  leaves (JObject ps) = leaves (JObject qs) ->
  pairs (transformParameters (JObject ps)) =
  pairs (transformParameters (JObject qs)).
Proof.
  intros Hnd Hl.
  assert (Hn : leaf_names (JObject qs) = leaf_names (JObject ps))
    by (now rewrite !leaf_names_leaves, Hl).
  rewrite !transformParameters_object.
  rewrite (pairs_loop_from_distinct _ _ eq_refl empty);
    [|intros n _ [] | assumption].
  rewrite (pairs_loop_from_distinct _ _ eq_refl empty);
    [|intros n _ [] | now rewrite Hn].
  now rewrite Hl.
Qed.

Lemma X12_encoding_depends_on_leaves_witness :
  let ps := [("page", JNumber 2);
             ("filter", JObject [("due", JDate (ValidDate 0));
                                 ("tag", JArray [JString "a"])]);
             ("done", JBoolean false)] in
  let qs := [("page", JNumber 2);
             ("when", JObject [("due", JDate (ValidDate 0))]);
             ("tag", JArray [JString "a"]);
             ("done", JBoolean false)] in
  NoDup (leaf_names (JObject ps)) /\
  leaves (JObject ps) = leaves (JObject qs) /\
  pairs (transformParameters (JObject ps)) =
  pairs (transformParameters (JObject qs)).
Proof.
  intros ps qs.
  assert (Hnd : NoDup (leaf_names (JObject ps))).
  { repeat constructor; simpl; intuition discriminate. }
  assert (Hl : leaves (JObject ps) = leaves (JObject qs)) by reflexivity.
  split; [exact Hnd|]. split; [exact Hl|].
  exact (X12_encoding_depends_on_leaves ps qs Hnd Hl).
Defined.

(** X13: the name of a wrapping property is lost: a bag whose only
    property is a nested object encodes exactly as that object does. *)
Theorem X13_wrapper_name_lost (x : string) (inner : list (string * JsValue)) :
  transformParameters (JObject [(x, JObject inner)]) =
  transformParameters (JObject inner).
Proof.
  rewrite (transformParameters_object [_]), loop_from_cons.
  change (loop_from ?sp []) with sp.
  change (loop_body x (JObject inner) (transformParameters (JObject inner))
            empty)
    with (appendAll empty (transformParameters (JObject inner))).
  rewrite appendAll_disjoint;
    [reflexivity | apply NoDup_transformParameters_object | intros k _ []].
Qed.

(** X14: the encoding never holds [undefined] or [null] as a value,
    whatever the bag. *)
Theorem X14_no_nullish_value (ps : list (string * JsValue)) (k : string)
        (v : JsValue) :
  In (k, v) (pairs (transformParameters (JObject ps))) -> nullish v = false.
Proof.
  intros Hin.
  apply (all_values_pairs (fun w => nullish w = false)
           (transformParameters (JObject ps)) k v); [|assumption].
  rewrite transformParameters_object.
  apply (present_loop_from (JObject ps) ps eq_refl); constructor.
Qed.

Lemma X14_no_nullish_witness :
  let ps := [("a", JArray [JNull; JNumber 1; JUndefined]);
             ("b", JUndefined); ("c", JNull)] in
  In ("a", JNumber 1) (pairs (transformParameters (JObject ps))) /\
  nullish (JNumber 1) = false.
Proof.
  intros ps.
  assert (Hin : In ("a", JNumber 1) (pairs (transformParameters (JObject ps))))
    by (now left).
  split; [exact Hin|].
  exact (X14_no_nullish_value ps "a" (JNumber 1) Hin).
Defined.

(** X15: a nested object whose own flattening is empty (an empty object,
    or one that holds only such values, [null] or [undefined]) adds
    nothing: the bag flattens as it does without the property. *)
Theorem X15_empty_nested_object_dropped (pre post inner : list (string * JsValue))
        (k : string) :
  transformParameters (JObject inner) = empty ->
  transformParameters (JObject (pre ++ (k, JObject inner) :: post)) =
  transformParameters (JObject (pre ++ post)).
Proof.
  intros Hempty.
  rewrite !transformParameters_object, !loop_from_app, loop_from_cons.
  change (loop_body k (JObject inner) (transformParameters (JObject inner))
            (loop_from empty pre))
    with (appendAll (loop_from empty pre) (transformParameters (JObject inner))).
  now rewrite Hempty.
Qed.

Lemma X15_empty_nested_object_witness :
  let inner := [("a", JNull); ("b", JObject []); ("c", JUndefined)] in
  transformParameters (JObject inner) = empty /\
  transformParameters
    (JObject ([("page", JNumber 1)] ++ ("filter", JObject inner) :: [])) =
  transformParameters (JObject ([("page", JNumber 1)] ++ [])).
Proof.
  intros inner.
  assert (H : transformParameters (JObject inner) = empty) by reflexivity.
  split; [exact H|].
  exact (X15_empty_nested_object_dropped [("page", JNumber 1)] [] inner
           "filter" H).
Defined.

(** X16: an array without an element that [append] keeps, in particular
    the empty array, adds nothing: the bag flattens as it does without
    the property. *)
Theorem X16_array_without_values_dropped (pre post : list (string * JsValue))
        (k : string) (l : list JsValue) :
  forallb nullish l = true ->
  transformParameters (JObject (pre ++ (k, JArray l) :: post)) =
  transformParameters (JObject (pre ++ post)).
Proof.
  intros Hl.
  rewrite !transformParameters_object, !loop_from_app, loop_from_cons.
  change (loop_body k (JArray l) (transformParameters (JArray l))
            (loop_from empty pre))
    with (fold_left (fun sp value => append sp k value) l (loop_from empty pre)).
  now rewrite append_all_nullish.
Qed.

Lemma X16_array_without_values_witness :
  forallb nullish [JNull; JUndefined] = true /\
  transformParameters
    (JObject ([] ++ ("tag", JArray [JNull; JUndefined])
                 :: [("page", JNumber 1)])) =
  transformParameters (JObject ([] ++ [("page", JNumber 1)])).
Proof.
  split; [reflexivity|].
  exact (X16_array_without_values_dropped [] [("page", JNumber 1)] "tag"
           [JNull; JUndefined] eq_refl).
Defined.

(** X17: a property whose value is [undefined] deletes what nested
    objects before it gathered under its name and adds nothing: the pairs
    of that name are those that later nested objects append; and when
    nothing was gathered under the name, the bag flattens as it does
    without the property. *)
Theorem X17_undefined_entry_deletes (pre post : list (string * JsValue))
        (k : string) :
  NoDup (List.map fst (pre ++ (k, JUndefined) :: post)) ->
  let bag := JObject (pre ++ (k, JUndefined) :: post) in
  values_named (transformParameters bag) k = flat_map (contribution k) post /\
  (~ In k (keys (transformParameters (JObject pre))) ->
   transformParameters bag = transformParameters (JObject (pre ++ post))).
Proof.
  intros Hnd bag; unfold bag; split.
  - rewrite values_named_object.
    rewrite transformParameters_object, loop_from_app, loop_from_cons.
    rewrite getAll_loop_from.
    + simpl loop_body; unfold set; simpl.
      unfold getAll at 1; rewrite map_get_delete_same; [reflexivity|].
      apply NoDup_loop_from; constructor.
    + intros p v Hin _.
      exact (later_names_differ pre post k JUndefined Hnd p v Hin).
  - intros Hfresh.
    rewrite !transformParameters_object, !loop_from_app, loop_from_cons.
    simpl loop_body; unfold set; simpl.
    rewrite map_delete_fresh; [reflexivity|].
    now rewrite <- transformParameters_object.
Qed.

Lemma X17_undefined_entry_witness :
  let pre := [("filter", JObject [("owner", JString "ann")])] in
  let post := [("page", JNumber 1)] in
  NoDup (List.map fst (pre ++ ("owner", JUndefined) :: post)) /\
  values_named
    (transformParameters (JObject (pre ++ ("owner", JUndefined) :: post)))
    "owner" = [] /\
  pairs (transformParameters (JObject (pre ++ ("owner", JUndefined) :: post)))
  = [("page", JNumber 1)].
Proof.
  intros pre post.
  assert (Hnd : NoDup (List.map fst (pre ++ ("owner", JUndefined) :: post))).
  { repeat constructor; simpl; intuition discriminate. }
  split; [exact Hnd|]. split.
  - exact (proj1 (X17_undefined_entry_deletes pre post "owner" Hnd)).
  - reflexivity.
Defined.

(** X18: a string, number or boolean property replaces what nested
    objects before it gathered under its name: the pairs of that name
    start with the value of the property, followed by what later nested
    objects append. *)
Theorem X18_scalar_entry_replaces (pre post : list (string * JsValue))
        (k : string) (v : JsValue) :
  NoDup (List.map fst (pre ++ (k, v) :: post)) ->
  is_scalar v = true ->
  values_named (transformParameters (JObject (pre ++ (k, v) :: post))) k =
  v :: flat_map (contribution k) post.
Proof.
  intros Hnd Hv.
  rewrite values_named_object.
  rewrite transformParameters_object, loop_from_app, loop_from_cons.
  rewrite getAll_loop_from.
  - destruct v; try discriminate Hv; simpl loop_body;
      now rewrite getAll_set_same.
  - intros p w Hin _; exact (later_names_differ pre post k v Hnd p w Hin).
Qed.

Lemma X18_scalar_entry_witness :
  let pre := [("filter", JObject [("owner", JString "ann")])] in
  let post := [("more", JObject [("owner", JString "bob")])] in
  NoDup (List.map fst (pre ++ ("owner", JString "cy") :: post)) /\
  is_scalar (JString "cy") = true /\
  values_named
    (transformParameters (JObject (pre ++ ("owner", JString "cy") :: post)))
    "owner" = [JString "cy"; JString "bob"].
Proof.
  intros pre post.
  assert (Hnd : NoDup (List.map fst (pre ++ ("owner", JString "cy") :: post))).
  { repeat constructor; simpl; intuition discriminate. }
  split; [exact Hnd|]. split; [reflexivity|].
  exact (X18_scalar_entry_replaces pre post "owner" (JString "cy") Hnd eq_refl).
Defined.

End FlattenExtras.
